(** * Issue-triage service: persistent store, triage state, action handler
      and dashboard query, embedded from [issue-triage/server.py] and
      [issue-triage/templates.py]. *)

From Stdlib Require Import ZArith String Ascii List DecimalString DecimalZ DecimalPos.
From Stdlib Require Import Sorted Permutation.
From stdpp Require Import gmap strings list fin_maps.

#[local] Set Warnings "-register-all".
#[local] Open Scope Z_scope.
#[local] Open Scope string_scope.

(* ===================================================================== *)
(** ** Python values *)
(* ===================================================================== *)

(** A value decoded from JSON, as [json.loads] builds it: [None], [bool],
    [int], [float], [str], [list] and [dict] with string keys.  A dict is a
    finite map: Python's dict equality ignores insertion order.  A float is
    kept as its binary64 bit pattern; nothing below looks inside one. *)
Inductive json : Type :=
| JNull
| JBool (b : bool)
| JInt (z : Z)
| JFloat (bits : N)
| JStr (s : string)
| JArr (items : list json)
| JObj (fields : gmap string json).

(** The values on which [isinstance(v, int)] holds: [bool] is a subclass of
    [int] in Python, with [True == 1] and [False == 0]. *)
Inductive pyint : Type :=
| PyInt (z : Z)
| PyBool (b : bool).

Definition isinstance_int (v : json) : option pyint :=
  match v with
  | JInt z => Some (PyInt z)
  | JBool b => Some (PyBool b)
  | _ => None
  end.

Definition int_value (n : pyint) : Z :=
  match n with
  | PyInt z => z
  | PyBool true => 1
  | PyBool false => 0
  end.

(** [str(n)]: decimal digits for an int, the literal's name for a bool. *)
Definition py_str (n : pyint) : string :=
  match n with
  | PyInt z => NilZero.string_of_int (Z.to_int z)
  | PyBool true => "True"
  | PyBool false => "False"
  end.

(** Truthiness of a [str]. *)
Definition truthy (s : string) : bool := negb (String.eqb s "").

(** [str.isspace] on one character.  A [str] is modelled as its sequence of
    code points below 256; these are the ones Python counts as whitespace. *)
Definition isspace (c : ascii) : bool :=
  let n := N_of_ascii c in
  (((9 <=? n) && (n <=? 13)) || ((28 <=? n) && (n <=? 32))
   || (n =? 133) || (n =? 160))%N.

Fixpoint lstrip (s : string) : string :=
  match s with
  | EmptyString => EmptyString
  | String c rest => if isspace c then lstrip rest else s
  end.

Definition rstrip (s : string) : string := String.rev (lstrip (String.rev s)).

(** [str.strip()]. *)
Definition strip (s : string) : string := rstrip (lstrip s).

(** Truthiness of a decoded value.  The two floats that are false are
    [0.0] and [-0.0], whose bit patterns are 0 and 2^63. *)
Definition json_truthy (v : json) : bool :=
  match v with
  | JNull => false
  | JBool b => b
  | JInt z => negb (z =? 0)%Z
  | JFloat bits => negb ((bits =? 0)%N || (bits =? 2 ^ 63)%N)
  | JStr s => truthy s
  | JArr items => match items with [] => false | _ => true end
  | JObj fields => negb (bool_decide (fields = ∅))
  end.

(** Exceptions that escape the modelled functions. *)
Inductive exn : Type :=
| JSONDecodeError
| TypeError
| AttributeError
| KeyError.

Inductive result (A : Type) : Type :=
| Ok (a : A)
| Raise (e : exn).

Arguments Ok {A} a.
Arguments Raise {A} e.

(* ===================================================================== *)
(** ** What the service runs on *)
(* ===================================================================== *)

(** Files by path, each holding its text. *)
Abbreviation store := (gmap string string).

(** What one request can observe and change: the files of the triage
    directory, the files of the system's temporary directory, and the log of
    what the handler did (external commands with their results, and calls of
    [mark_triaged]), oldest first.  The note of a call is the value the
    caller passed, whatever its type. *)
Inductive event : Type :=
| GhCall (args : list string) (ok : bool) (err : string)
| MarkTriaged (number : pyint) (action : string) (comment_posted : bool) (note : json).

Record world : Type := World {
  files : store;
  tmpfiles : store;
  trace : list event
}.

(** How [subprocess.run(args, check=True, ..., timeout=30)] can end. *)
Inductive run_result : Type :=
| Completed
| CalledProcessError (stderr : option string) (shown : string)
| TimeoutExpired.

#[global] Instance run_result_eq_dec : EqDecision run_result.
Proof. solve_decision. Defined.

(** The library and operating-system services the code calls: the [json]
    codec, [Path.with_suffix(".tmp")] on paths that have a file name (a
    path without one names no file), the UTC clock's [isoformat()], the
    name [NamedTemporaryFile] picks, and [subprocess.run], which sees the
    world it is started in. *)
Class Host : Type := {
  json_dumps : json -> string;
  json_loads : string -> option json;
  with_suffix_tmp : string -> string;
  utcnow_isoformat : string;
  named_temporary_file : string;
  subprocess_run : world -> list string -> run_result
}.

(* ===================================================================== *)
(** ** server.py *)
(* ===================================================================== *)

Module Server.

Section JsonHelpers.
Context `{Host}.

(** [load_json]: the parsed file, an empty dict when it is missing. *)
Definition load_json (fs : store) (path : string) : result json :=
  match fs !! path with
  | Some text =>
      match json_loads text with
      | Some data => Ok data
      | None => Raise JSONDecodeError
      end
  | None => Ok (JObj ∅)
  end.

(** [Path.rename]: the target is replaced, the source name disappears;
    renaming a file onto itself changes nothing. *)
Definition rename (src dst : string) (fs : store) : store :=
  match fs !! src with
  | Some text => <[dst := text]> (delete src fs)
  | None => fs
  end.

(** [save_json]: write the text to the [.tmp] sibling, then rename it into
    place.  ([mkdir] has nothing to do in a store keyed by full paths.) *)
Definition save_json (fs : store) (path : string) (data : json) : store :=
  let tmp := with_suffix_tmp path in
  let fs1 := <[tmp := json_dumps data]> fs in
  rename tmp path fs1.

(** [triage_dir / "state.json"]. *)
Definition state_json (triage_dir : string) : string :=
  triage_dir ++ "/state.json".

(** The entry [mark_triaged] builds.  [note] is whatever the caller
    passed: [if note:] tests its truth and [entry["note"] = note] stores it
    as it is. *)
Definition new_entry (action : string) (comment_posted : bool) (note : json)
  : gmap string json :=
  let entry := <["at" := JStr utcnow_isoformat]> (<["action" := JStr action]> ∅) in
  let entry := if comment_posted then <["comment_posted" := JBool true]> entry else entry in
  if json_truthy note then <["note" := note]> entry else entry.

(** [mark_triaged]: load the state, make sure it has a [triaged] dict, set
    the entry under [str(number)], save, return the entry.  Subscripting
    anything but a dict with a string raises [TypeError]. *)
Definition mark_triaged (fs : store) (triage_dir : string) (number : pyint)
    (action : string) (comment_posted : bool) (note : json)
  : result (store * gmap string json) :=
  let state_path := state_json triage_dir in
  match load_json fs state_path with
  | Raise e => Raise e
  | Ok (JObj state) =>
      let state :=
        match state !! "triaged" with
        | None => <["triaged" := JObj ∅]> state
        | Some _ => state
        end in
      let entry := new_entry action comment_posted note in
      match state !! "triaged" with
      | Some (JObj triaged) =>
          let state := <["triaged" := JObj (<[py_str number := JObj entry]> triaged)]> state in
          Ok (save_json fs state_path (JObj state), entry)
      | _ => Raise TypeError
      end
  | Ok _ => Raise TypeError
  end.

(** The [triaged] dict [mark_triaged] works on: the one of the state, an
    empty one when the key is missing; none when the key holds anything
    but a dict. *)
Definition triaged_dict (state : gmap string json) : option (gmap string json) :=
  match state !! "triaged" with
  | None => Some ∅
  | Some (JObj triaged) => Some triaged
  | Some _ => None
  end.

End JsonHelpers.

(** How handling one request ends: a response was sent, or an exception
    escaped the handler.  [OutsideSchema] is the one request the decoded
    body does not determine: a close whose [labels] is an object with two
    keys or more, whose label commands run in the order of the keys in the
    request text, which a finite map does not keep. *)
Inductive outcome : Type :=
| Sent (status : Z) (payload : json)
| Crashed (e : exn)
| OutsideSchema.

Definition log (e : event) (w : world) : world :=
  World (files w) (tmpfiles w) (trace w ++ [e]).

Definition action_names : list string :=
  ["close"; "close_wontfix"; "comment"; "skip"].

Definition as_str (v : json) : option string :=
  match v with
  | JStr s => Some s
  | _ => None
  end.

(** The characters of a string, as iterating over it gives them. *)
Definition characters (s : string) : list json :=
  (fun c => JStr (String c EmptyString)) <$> list_ascii_of_string s.

(** [labels or []], as the loop [for label in ...] goes over it: nothing
    for a false value, the items of a list, the characters of a string, the
    keys of a dict; a number or [True] is not iterable.  [None] stands for
    the dict with two keys or more. *)
Definition label_items (labels : json) : option (result (list json)) :=
  if negb (json_truthy labels) then Some (Ok [])
  else
    match labels with
    | JArr items => Some (Ok items)
    | JStr s => Some (Ok (characters s))
    | JObj fields =>
        match map_to_list fields with
        | [(k, _)] => Some (Ok [JStr k])
        | _ => None
        end
    | _ => Some (Raise TypeError)
    end.

(** [body.get(key, default)]. *)
Definition body_get (body : gmap string json) (key : string) (default : json) : json :=
  match body !! key with
  | Some v => v
  | None => default
  end.

Section Handler.
Context `{Host}.
Variables (triage_dir repo : string).

Definition _send_json (data : json) (status : Z) : outcome := Sent status data.

Definition _send_error_json (status : Z) (message : string) : outcome :=
  _send_json (JObj {[ "error" := JStr message ]}) status.

Definition failure (message : string) : json :=
  JObj (<["error" := JStr message]> (<["ok" := JBool false]> ∅)).

Definition success (action : string) (entry : gmap string json) : json :=
  JObj (<["entry" := JObj entry]> (<["action" := JStr action]> (<["ok" := JBool true]> ∅))).

Definition label_args (number : pyint) (label : string) : list string :=
  ["gh"; "issue"; "edit"; py_str number; "--repo"; repo; "--add-label"; label].

Definition comment_args (number : pyint) (tmppath : string) : list string :=
  ["gh"; "issue"; "comment"; py_str number; "--repo"; repo; "--body-file"; tmppath].

Definition close_args (number : pyint) (reason : string) : list string :=
  ["gh"; "issue"; "close"; py_str number; "--repo"; repo; "--reason"; reason].

(** [_run_gh]: run the command, turn its two failure modes into
    [(False, message)]. *)
Definition _run_gh (args : list string) (w : world) : (bool * string) * world :=
  let r :=
    match subprocess_run w args with
    | Completed => (true, "")
    | CalledProcessError stderr shown =>
        (false,
         match stderr with
         | Some text => if truthy text then strip text else shown
         | None => shown
         end)
    | TimeoutExpired => (false, "Command timed out")
    end in
  (r, log (GhCall args (fst r) (snd r)) w).

(** The block [_do_close] and [_do_comment] share: the comment goes to a
    named temporary file, [gh issue comment] reads it, the file is
    unlinked whatever the command did. *)
Definition post_comment (number : pyint) (comment : string) (w : world)
  : (bool * string) * world :=
  let tmppath := named_temporary_file in
  let w := World (files w) (<[tmppath := comment]> (tmpfiles w)) (trace w) in
  let '(r, w) := _run_gh (comment_args number tmppath) w in
  (r, World (files w) (delete tmppath (tmpfiles w)) (trace w)).

(** The label loop of [_do_close]: the first failure ends it, with the
    label and the error.  A label that is not a [str] cannot be an argument
    of a command: [subprocess.run] raises [TypeError] before it starts
    anything, and [_run_gh] does not catch it. *)
Fixpoint add_labels (number : pyint) (labels : list json) (w : world)
  : result (option (string * string)) * world :=
  match labels with
  | [] => (Ok None, w)
  | JStr label :: rest =>
      let '((ok, err), w) := _run_gh (label_args number label) w in
      if ok then add_labels number rest w else (Ok (Some (label, err)), w)
  | _ :: _ => (Raise TypeError, w)
  end.

(** A call of [mark_triaged] by the handler, on the files of the world. *)
Definition record_triage (number : pyint) (action : string)
    (comment_posted : bool) (note : json) (w : world)
  : result (gmap string json) * world :=
  let w := log (MarkTriaged number action comment_posted note) w in
  match mark_triaged (files w) triage_dir number action comment_posted note with
  | Ok (fs, entry) => (Ok entry, World fs (tmpfiles w) (trace w))
  | Raise e => (Raise e, w)
  end.

Definition recorded (action : string) (r : result (gmap string json) * world)
  : outcome * world :=
  match r with
  | (Ok entry, w) => (_send_json (success action entry) 200, w)
  | (Raise e, w) => (Crashed e, w)
  end.

(** [_do_close].  [comment] and [labels] are the values of the request
    body: [comment.strip()] raises [AttributeError] on anything but a
    string, after the label commands have run. *)
Definition _do_close (number : pyint) (comment : json) (reason : string)
    (labels : json) (w : world) : outcome * world :=
  match label_items labels with
  | None => (OutsideSchema, w)
  | Some (Raise e) => (Crashed e, w)
  | Some (Ok items) =>
      match add_labels number items w with
      | (Raise e, w) => (Crashed e, w)
      | (Ok (Some (label, err)), w) =>
          (_send_json (failure ("Failed to add label '" ++ label ++ "': " ++ err)) 502, w)
      | (Ok None, w) =>
          match comment with
          | JStr comment =>
              let '((ok, err), w) :=
                if truthy (strip comment) then post_comment number comment w
                else ((true, ""), w) in
              if negb ok then
                (_send_json (failure ("Failed to post comment: " ++ err)) 502, w)
              else
                let '((ok, err), w) := _run_gh (close_args number reason) w in
                if negb ok then
                  (_send_json (failure ("Failed to close issue: " ++ err)) 502, w)
                else
                  recorded "closed"
                    (record_triage number "closed" (truthy (strip comment)) (JStr "") w)
          | _ => (Crashed AttributeError, w)
          end
      end
  end.

(** [_do_comment]; [comment.strip()] as in [_do_close]. *)
Definition _do_comment (number : pyint) (comment : json) (w : world)
  : outcome * world :=
  match comment with
  | JStr comment =>
      if negb (truthy (strip comment)) then
        (_send_error_json 400 "Comment cannot be empty", w)
      else
        let '((ok, err), w) := post_comment number comment w in
        if negb ok then
          (_send_json (failure ("Failed to post comment: " ++ err)) 502, w)
        else
          recorded "commented" (record_triage number "commented" true (JStr "") w)
  | _ => (Crashed AttributeError, w)
  end.

Definition _do_skip (number : pyint) (note : json) (w : world)
  : outcome * world :=
  recorded "skipped" (record_triage number "skipped" false note w).

(** The branch of [_handle_action] for a body that passed the checks.
    [["wontfix"] + labels] raises [TypeError] unless [labels] is a list. *)
Definition dispatch (number : pyint) (action : string) (comment labels : json)
    (w : world) : outcome * world :=
  if String.eqb action "close" then
    _do_close number comment "completed" labels w
  else if String.eqb action "close_wontfix" then
    match labels with
    | JArr items =>
        _do_close number comment "not planned" (JArr (JStr "wontfix" :: items)) w
    | _ => (Crashed TypeError, w)
    end
  else if String.eqb action "comment" then
    _do_comment number comment w
  else
    _do_skip number comment w.

(** [_handle_action], from the request body's text. *)
Definition _handle_action (raw : string) (w : world) : outcome * world :=
  match json_loads raw with
  | None => (_send_error_json 400 "Invalid JSON body", w)
  | Some (JObj body) =>
      let number := body_get body "number" JNull in
      let action := body_get body "action" JNull in
      let comment := body_get body "comment" (JStr "") in
      match isinstance_int number with
      | None => (_send_error_json 400 "Invalid issue number", w)
      | Some number =>
          if (int_value number <=? 0)%Z then
            (_send_error_json 400 "Invalid issue number", w)
          else
            match as_str action with
            | None =>
                (_send_error_json 400
                   "Action must be 'close', 'close_wontfix', 'comment', or 'skip'", w)
            | Some action =>
                if negb (bool_decide (action ∈ action_names)) then
                  (_send_error_json 400
                     "Action must be 'close', 'close_wontfix', 'comment', or 'skip'", w)
                else
                  let labels := body_get body "labels" (JArr []) in
                  dispatch number action comment labels w
            end
      end
  | Some _ => (Crashed AttributeError, w)
  end.

(** The requests that pass the checks of [_handle_action], with the fields
    the handler reads from them: [comment] and [labels] as the body has
    them, or their defaults. *)
Definition valid_request (raw : string) : option (pyint * string * json * json) :=
  match json_loads raw with
  | Some (JObj body) =>
      match isinstance_int (body_get body "number" JNull),
            as_str (body_get body "action" JNull) with
      | Some number, Some action =>
          if (0 <? int_value number)%Z && bool_decide (action ∈ action_names)
          then Some (number, action, body_get body "comment" (JStr ""),
                     body_get body "labels" (JArr []))
          else None
      | _, _ => None
      end
  | _ => None
  end.

(** Whether a command is the comment command, by its verb. *)
Definition is_comment_call (args : list string) : bool :=
  bool_decide (args !! 2%nat = Some "comment").

(** The world a command of a close or of a comment is started in when the
    commands [before] it went through: the files as they were, the log
    extended by those commands, and in the temporary directory the file
    with the comment while the comment command runs, unlinked afterwards. *)
Definition started_in (w : world) (comment : string) (before : list (list string))
    (args : list string) : world :=
  World (files w)
    (if is_comment_call args then <[named_temporary_file := comment]> (tmpfiles w)
     else if existsb is_comment_call before
          then delete named_temporary_file (tmpfiles w)
          else tmpfiles w)
    (trace w ++ ((fun a => GhCall a true "") <$> before)).

(** The message [_run_gh] reports for a command that did not complete. *)
Definition reported (r : run_result) : string :=
  match r with
  | Completed => ""
  | CalledProcessError (Some text) shown => if truthy text then strip text else shown
  | CalledProcessError None shown => shown
  | TimeoutExpired => "Command timed out"
  end.

End Handler.

(** A command that went through, as the log shows it. *)
Definition went_through (args : list string) : event := GhCall args true "".

(** The commands of a log, in order. *)
Definition commands_run (evs : list event) : list (list string) :=
  omap (fun e => match e with
                 | GhCall args _ _ => Some args
                 | MarkTriaged _ _ _ _ => None
                 end) evs.

End Server.

(** The commands and the payloads of the handler written out in full, as
    the statements below name them. *)
Abbreviation label_call repo number label :=
  ["gh"; "issue"; "edit"; py_str number; "--repo"; repo; "--add-label"; label].

Abbreviation label_calls repo number labels :=
  ((fun label => ["gh"; "issue"; "edit"; py_str number; "--repo"; repo;
                  "--add-label"; label]) <$> labels).

Abbreviation comment_call repo number tmppath :=
  ["gh"; "issue"; "comment"; py_str number; "--repo"; repo; "--body-file"; tmppath].

Abbreviation close_call repo number reason :=
  ["gh"; "issue"; "close"; py_str number; "--repo"; repo; "--reason"; reason].

Abbreviation ok_payload action entry :=
  (JObj (<["entry" := JObj entry]>
           (<["action" := JStr action]> (<["ok" := JBool true]> ∅)))).

Abbreviation error_payload text :=
  (JObj (<["error" := JStr text]> (<["ok" := JBool false]> ∅))).

(* ===================================================================== *)
(** ** templates.py: the dashboard query *)
(* ===================================================================== *)

Module Templates.

(** An issue of [issues.json], with the keys the query reads.  [number] is
    read by subscript, the others by [.get] with a default. *)
Record issue : Type := Issue {
  number : Z;
  title : option string;
  body : option string;
  created_at : option string
}.

(** An entry of [findings["issues"]]. *)
Record finding : Type := Finding {
  f_number : Z;
  verdict : option string;
  confidence : option string
}.

(** A row of the table: the issue and the three badges. *)
Record row : Type := Row {
  row_issue : issue;
  row_verdict : string;
  row_confidence : string;
  row_status : option json
}.

(** [d.get(key, default)] on a dict of strings. *)
Definition get_or (d : gmap string string) (key default : string) : string :=
  match d !! key with
  | Some v => v
  | None => default
  end.

(** [str.lower] on one code point below 256. *)
Definition lower_char (c : ascii) : ascii :=
  let n := N_of_ascii c in
  if (((65 <=? n) && (n <=? 90))
      || ((192 <=? n) && (n <=? 222) && negb (n =? 215)))%N
  then ascii_of_N (n + 32) else c.

Fixpoint lower (s : string) : string :=
  match s with
  | EmptyString => EmptyString
  | String c rest => String (lower_char c) (lower rest)
  end.

(** [needle in hay] on strings. *)
Fixpoint contains (needle hay : string) : bool :=
  String.prefix needle hay ||
  match hay with
  | EmptyString => false
  | String _ rest => contains needle rest
  end.

(** [list.sort(key=...)]: a stable sort, here by insertion from the right,
    each element going in front of the first one whose key is not smaller. *)
Section Sort.
Context {A K : Type} (key : A -> K) (leb : K -> K -> bool).

Fixpoint insert_by (x : A) (l : list A) : list A :=
  match l with
  | [] => [x]
  | y :: rest => if leb (key x) (key y) then x :: l else y :: insert_by x rest
  end.

Definition sort_by (l : list A) : list A := foldr insert_by [] l.
End Sort.

(** What a stable sort of [input] by [key] leaves in [output]: the keys in
    ascending order; for each key, the elements that have it in the order
    they had in [input]; hence, when [input] came in ascending [minor]
    order, equal keys in ascending [minor] order. *)
Definition stably_sorted {A K : Type} `{EqDecision K} (key : A -> K)
    (leb : K -> K -> bool) (minor : A -> Z) (input output : list A) : Prop :=
  StronglySorted (fun a b => leb (key a) (key b) = true) output
  ∧ (∀ k, filter (fun a => key a = k) output = filter (fun a => key a = k) input)
  ∧ (StronglySorted (fun a b => (minor a <= minor b)%Z) input ->
     StronglySorted (fun a b => leb (key a) (key b) = true
                                ∧ (leb (key b) (key a) = true -> (minor a <= minor b)%Z))
       output).

(** The lookup map [findings_by_num]: a later finding for the same number
    replaces an earlier one. *)
Definition index_findings (findings : list finding) : gmap Z finding :=
  foldl (fun m f => <[f_number f := f]> m) ∅ findings.

(** [findings_by_num.get(i["number"], {}).get(field)]. *)
Definition finding_get (field : finding -> option string)
    (findings_by_num : gmap Z finding) (i : issue) : option string :=
  findings_by_num !! number i ≫= field.

(** [state.get("triaged", {})]. *)
Definition triaged_of (state : gmap string json) : gmap string json :=
  match state !! "triaged" with
  | Some (JObj t) => t
  | _ => ∅
  end.

(** [order.get(c, 3)] for the table
    [{"HIGH": 0, "MEDIUM": 1, "LOW": 2, "PENDING": 3}]. *)
Definition order_get (c : string) : nat :=
  if String.eqb c "HIGH" then 0
  else if String.eqb c "MEDIUM" then 1
  else if String.eqb c "LOW" then 2
  else 3.

(** The sort key of the confidence sort. *)
Definition confidence_key (findings_by_num : gmap Z finding) (i : issue) : nat :=
  order_get (default "PENDING" (finding_get confidence findings_by_num i)).

(** The sort key of the age sort. *)
Definition age_key (i : issue) : string := default "" (created_at i).

(** The filter stage of [render_dashboard]. *)
Definition apply_filters (issues : list issue) (findings_by_num : gmap Z finding)
    (triaged : gmap string json) (filters : gmap string string) : list issue :=
  let filtered := issues in
  let verdict_filter := get_or filters "verdict" "" in
  let filtered :=
    if truthy verdict_filter then
      filter (fun i => finding_get verdict findings_by_num i = Some verdict_filter) filtered
    else filtered in
  let confidence_filter := get_or filters "confidence" "" in
  let filtered :=
    if truthy confidence_filter then
      filter (fun i => finding_get confidence findings_by_num i = Some confidence_filter) filtered
    else filtered in
  let q := get_or filters "q" "" in
  let filtered :=
    if truthy q then
      let ql := lower q in
      filter (fun i => contains ql (lower (default "" (title i)))
                       || contains ql (lower (default "" (body i)))) filtered
    else filtered in
  let show := get_or filters "show" "all" in
  if String.eqb show "pending" then
    filter (fun i => triaged !! py_str (PyInt (number i)) = None) filtered
  else if String.eqb show "triaged" then
    filter (fun i => is_Some (triaged !! py_str (PyInt (number i)))) filtered
  else filtered.

(** The sort stage of [render_dashboard]. *)
Definition apply_sort (filtered : list issue) (findings_by_num : gmap Z finding)
    (filters : gmap string string) : list issue :=
  let sort_by_name := get_or filters "sort" "number" in
  if String.eqb sort_by_name "age" then
    sort_by age_key String.leb filtered
  else if String.eqb sort_by_name "confidence" then
    sort_by (confidence_key findings_by_num) Nat.leb filtered
  else
    sort_by number Z.leb filtered.

(** The issues of the table, in the order of its rows. *)
Definition dashboard_issues (issues : list issue) (findings : list finding)
    (state : gmap string json) (filters : gmap string string) : list issue :=
  let findings_by_num := index_findings findings in
  let triaged := triaged_of state in
  apply_sort (apply_filters issues findings_by_num triaged filters) findings_by_num filters.

(** One pass of the loop that builds the rows.
    [triaged.get(str(n), {}).get("action")] raises [AttributeError] on an
    entry that is not a dict; then the row subscripts [issue["title"]],
    which raises [KeyError] on an issue without a title. *)
Definition render_row (findings_by_num : gmap Z finding) (triaged : gmap string json)
    (i : issue) : result row :=
  let verdict := default "pending" (finding_get verdict findings_by_num i) in
  let confidence := default "PENDING" (finding_get confidence findings_by_num i) in
  match triaged !! py_str (PyInt (number i)) with
  | Some (JObj entry) =>
      match title i with
      | Some _ => Ok (Row i verdict confidence (entry !! "action"))
      | None => Raise KeyError
      end
  | Some _ => Raise AttributeError
  | None =>
      match title i with
      | Some _ => Ok (Row i verdict confidence None)
      | None => Raise KeyError
      end
  end.

(** The loop: the first issue that raises ends it. *)
Fixpoint render_rows (findings_by_num : gmap Z finding) (triaged : gmap string json)
    (filtered : list issue) : result (list row) :=
  match filtered with
  | [] => Ok []
  | i :: rest =>
      match render_row findings_by_num triaged i with
      | Raise e => Raise e
      | Ok r =>
          match render_rows findings_by_num triaged rest with
          | Raise e => Raise e
          | Ok rows => Ok (r :: rows)
          end
      end
  end.

(** [render_dashboard], up to markup: the rows of the table. *)
Definition render_dashboard (issues : list issue) (findings : list finding)
    (state : gmap string json) (filters : gmap string string) : result (list row) :=
  let findings_by_num := index_findings findings in
  let triaged := triaged_of state in
  render_rows findings_by_num triaged (dashboard_issues issues findings state filters).

(** Sample data, after the fixtures of the test suite. *)
Definition issue_101 : issue :=
  Issue 101 (Some "Bug: crash on startup")
    (Some "App crashes immediately after launch.") (Some "2025-01-15T10:00:00Z").

Definition issue_102 : issue :=
  Issue 102 (Some "Feature: dark mode")
    (Some "Please add dark mode support.") (Some "2025-02-01T08:00:00Z").

Definition issue_103 : issue :=
  Issue 103 (Some "Docs: typo") (Some "A typo in the README.")
    (Some "2025-02-03T08:00:00Z").

Definition sample_findings : list finding :=
  [Finding 101 (Some "likely_resolved") (Some "HIGH");
   Finding 102 (Some "still_open") (Some "HIGH")].

End Templates.

(* ===================================================================== *)
(** ** The specification's words *)
(* ===================================================================== *)

(** What the specification says where the code is compared with it. *)
Module Spec.

(** The order of a confidence: HIGH < MEDIUM < LOW < PENDING, an issue
    without a confidence counting as PENDING, which is last. *)
Definition confidence_rank (confidence : option string) : nat :=
  match confidence with
  | Some c =>
      if String.eqb c "HIGH" then 0
      else if String.eqb c "MEDIUM" then 1
      else if String.eqb c "LOW" then 2
      else 3
  | None => 3
  end.

(** The Finding for an issue number: the entry of the findings with that
    number, the last one if there are several. *)
Definition finding_of (findings : list Templates.finding) (n : Z)
  : option Templates.finding :=
  last (filter (fun f => Templates.f_number f = n) findings).

(** The calls of a close as the specification orders them: label-add
    calls for close_wontfix only, the forced wontfix first; the
    comment-post call whenever the comment text is not empty; then the close
    call, with its reason. *)
Definition close_calls (repo : string) (tmppath : string) (action : string)
    (number comment : string) (labels : list string) : list (list string) :=
  if String.eqb action "close_wontfix" then
    ((fun l => ["gh"; "issue"; "edit"; number; "--repo"; repo; "--add-label"; l])
       <$> ("wontfix" :: labels))
    ++ (if String.eqb comment "" then []
        else [["gh"; "issue"; "comment"; number; "--repo"; repo; "--body-file"; tmppath]])
    ++ [["gh"; "issue"; "close"; number; "--repo"; repo; "--reason"; "not planned"]]
  else
    (if String.eqb comment "" then []
     else [["gh"; "issue"; "comment"; number; "--repo"; repo; "--body-file"; tmppath]])
    ++ [["gh"; "issue"; "close"; number; "--repo"; repo; "--reason"; "completed"]].

End Spec.

(* ===================================================================== *)
(** ** A concrete host *)
(* ===================================================================== *)

(** A small JSON codec and simple stand-ins for the other services, on
    which every definition above computes. *)
Module Reference.

Definition decimal (z : Z) : string := NilZero.string_of_int (Z.to_int z).

Fixpoint escape (s : string) : string :=
  match s with
  | EmptyString => EmptyString
  | String c rest =>
      if (Ascii.eqb c "034" || Ascii.eqb c "\")%bool
      then String "\" (String c (escape rest))
      else String c (escape rest)
  end.

Definition quote (s : string) : string :=
  String "034" (escape s ++ String "034" EmptyString).

Definition join (sep : string) (parts : list string) : string :=
  match parts with
  | [] => ""
  | p :: rest => foldl (fun acc x => acc ++ sep ++ x) p rest
  end.

(** Printer.  A float is written as its bit pattern followed by [f]. *)
Fixpoint dumps (j : json) : string :=
  match j with
  | JNull => "null"
  | JBool true => "true"
  | JBool false => "false"
  | JInt z => decimal z
  | JFloat bits => decimal (Z.of_N bits) ++ "f"
  | JStr s => quote s
  | JArr items => "[" ++ join ", " (map dumps items) ++ "]"
  | JObj fields =>
      "{" ++ join ", "
               (map_fold (fun k v acc => (quote k ++ ": " ++ dumps v) :: acc) [] fields)
          ++ "}"
  end.

Definition is_ws (c : ascii) : bool :=
  (Ascii.eqb c " " || Ascii.eqb c "009" || Ascii.eqb c "010" || Ascii.eqb c "013")%bool.

Fixpoint skip_ws (s : string) : string :=
  match s with
  | EmptyString => EmptyString
  | String c rest => if is_ws c then skip_ws rest else s
  end.

Definition digit_of (c : ascii) : option Z :=
  let n := N_of_ascii c in
  if ((48 <=? n) && (n <=? 57))%N then Some (Z.of_N n - 48) else None.

Fixpoint read_digits (s : string) (acc : Z) : Z * string :=
  match s with
  | EmptyString => (acc, s)
  | String c rest =>
      match digit_of c with
      | Some d => read_digits rest (10 * acc + d)
      | None => (acc, s)
      end
  end.

(** After the opening quote: the text up to the closing one. *)
Fixpoint read_string (s : string) (acc : string) : option (string * string) :=
  match s with
  | EmptyString => None
  | String c rest =>
      if Ascii.eqb c "034" then Some (String.rev acc, rest)
      else if Ascii.eqb c "\" then
        match rest with
        | EmptyString => None
        | String c' rest' => read_string rest' (String c' acc)
        end
      else read_string rest (String c acc)
  end.

Definition read_number (negative : bool) (s : string) : option (json * string) :=
  match s with
  | EmptyString => None
  | String c _ =>
      match digit_of c with
      | None => None
      | Some _ =>
          let '(n, rest) := read_digits s 0 in
          match rest with
          | String "f" rest' =>
              if negative then None else Some (JFloat (Z.to_N n), rest')
          | _ => Some (JInt (if negative then - n else n), rest)
          end
      end
  end.

Definition read_word (word : string) (v : json) (s : string) : option (json * string) :=
  if String.prefix word s
  then Some (v, String.substring (String.length word)
                                 (String.length s - String.length word) s)
  else None.

(** Parser, by recursive descent with fuel. *)
Fixpoint read_value (fuel : nat) (s : string) : option (json * string) :=
  match fuel with
  | O => None
  | S fuel =>
      match skip_ws s with
      | EmptyString => None
      | String c rest =>
          if Ascii.eqb c "{" then
            match skip_ws rest with
            | String "}" rest' => Some (JObj ∅, rest')
            | _ => read_members fuel rest ∅
            end
          else if Ascii.eqb c "[" then
            match skip_ws rest with
            | String "]" rest' => Some (JArr [], rest')
            | _ => read_items fuel rest []
            end
          else if Ascii.eqb c "034" then
            match read_string rest "" with
            | Some (text, rest') => Some (JStr text, rest')
            | None => None
            end
          else if Ascii.eqb c "-" then read_number true rest
          else if Ascii.eqb c "n" then read_word "null" JNull (String c rest)
          else if Ascii.eqb c "t" then read_word "true" (JBool true) (String c rest)
          else if Ascii.eqb c "f" then read_word "false" (JBool false) (String c rest)
          else read_number false (String c rest)
      end
  end
with read_items (fuel : nat) (s : string) (acc : list json) : option (json * string) :=
  match fuel with
  | O => None
  | S fuel =>
      match read_value fuel s with
      | None => None
      | Some (v, rest) =>
          match skip_ws rest with
          | String "," rest' => read_items fuel rest' (v :: acc)
          | String "]" rest' => Some (JArr (rev (v :: acc)), rest')
          | _ => None
          end
      end
  end
with read_members (fuel : nat) (s : string) (acc : gmap string json)
  : option (json * string) :=
  match fuel with
  | O => None
  | S fuel =>
      match skip_ws s with
      | String "034"%char rest =>
          match read_string rest "" with
          | None => None
          | Some (key, rest) =>
              match skip_ws rest with
              | String ":" rest =>
                  match read_value fuel rest with
                  | None => None
                  | Some (v, rest) =>
                      match skip_ws rest with
                      | String "," rest' => read_members fuel rest' (<[key := v]> acc)
                      | String "}" rest' => Some (JObj (<[key := v]> acc), rest')
                      | _ => None
                      end
                  end
              | _ => None
              end
          end
      | _ => None
      end
  end.

Definition loads (text : string) : option json :=
  match read_value (2 * String.length text + 2) text with
  | Some (v, rest) =>
      match skip_ws rest with
      | EmptyString => Some v
      | _ => None
      end
  | None => None
  end.

(** The text before the last suffix of the last path component, reversed
    in and out: [r] is what is left of the reversed path, [seen] how many
    characters of the name were passed. *)
Fixpoint drop_suffix_rev (r : string) (seen : nat) : option string :=
  match r with
  | EmptyString => None
  | String c rest =>
      if Ascii.eqb c "/" then None
      else if Ascii.eqb c "." then
        match seen, rest with
        | O, _ => None
        | _, EmptyString => None
        | _, String c' _ => if Ascii.eqb c' "/" then None else Some rest
        end
      else drop_suffix_rev rest (S seen)
  end.

Definition with_suffix (path : string) : string :=
  match drop_suffix_rev (String.rev path) 0 with
  | Some stem => String.rev stem ++ ".tmp"
  | None => path ++ ".tmp"
  end.

(** A host where every command succeeds. *)
Definition host : Host := {|
  json_dumps := dumps;
  json_loads := loads;
  with_suffix_tmp := with_suffix;
  utcnow_isoformat := "2025-02-11T10:00:00+00:00";
  named_temporary_file := "/tmp/tmpq4x1.md";
  subprocess_run := fun _ _ => Completed
|}.

(** A host where [gh] fails on every command with the given verb. *)
Definition host_failing (verb : string) : Host := {|
  json_dumps := dumps;
  json_loads := loads;
  with_suffix_tmp := with_suffix;
  utcnow_isoformat := "2025-02-11T10:00:00+00:00";
  named_temporary_file := "/tmp/tmpq4x1.md";
  subprocess_run := fun _ args =>
    if bool_decide (verb ∈ args)
    then CalledProcessError (Some "not found
") "Command returned non-zero exit status 1."
    else Completed
|}.

(** Sample texts below are written with ['] for the JSON quote. *)
Fixpoint json_text (s : string) : string :=
  match s with
  | EmptyString => EmptyString
  | String c rest =>
      String (if Ascii.eqb c "'" then "034"%char else c) (json_text rest)
  end.

(** Sample data, after the fixtures of the test suite. *)
Definition triage_dir : string := "/t/triage".

Definition state_text : string :=
  json_text "{'triaged': {'101': {'action': 'closed', 'at': '2025-02-11T09:00:00Z', 'comment_posted': true, 'note': 'seen'}}, 'schema': 1}".

Definition old_entry : gmap string json :=
  <["note" := JStr "seen"]>
    (<["comment_posted" := JBool true]>
       (<["at" := JStr "2025-02-11T09:00:00Z"]> (<["action" := JStr "closed"]> ∅))).

Definition sample_triaged : gmap string json := <["101" := JObj old_entry]> ∅.

Definition sample_state : gmap string json :=
  <["schema" := JInt 1]> (<["triaged" := JObj sample_triaged]> ∅).

Definition sample_files : store := <["/t/triage/state.json" := state_text]> ∅.

Definition sample_world : world := World sample_files ∅ [].

Definition repo : string := "owner/repo".

(** Request bodies. *)
Definition close_with_comment : string :=
  json_text "{'number': 102, 'action': 'close', 'comment': 'test'}".

Definition close_with_labels : string :=
  json_text "{'number': 102, 'action': 'close', 'comment': '', 'labels': ['bug']}".

Definition wontfix_blank_comment : string :=
  json_text "{'number': 102, 'action': 'close_wontfix', 'comment': ' '}".

Definition wontfix_with_comment : string :=
  json_text "{'number': 102, 'action': 'close_wontfix', 'comment': 'Stale issue.', 'labels': ['stale']}".


Definition skip_with_note : string :=
  json_text "{'number': 102, 'action': 'skip', 'comment': 'Not relevant'}".

Definition skip_number_true : string :=
  json_text "{'number': true, 'action': 'skip', 'comment': ''}".

Definition skip_null_comment : string :=
  json_text "{'number': 102, 'action': 'skip', 'comment': null}".

(** A triage directory whose [state.json] is not JSON. *)
Definition broken_world : world :=
  World (<["/t/triage/state.json" := "not json"]> ∅) ∅ [].

End Reference.

(* ===================================================================== *)
(** ** server.py: the read handlers and the choice of the repository *)
(* ===================================================================== *)

Module Routes.

(** ["triaged" == v] for an element of a list. *)
Definition is_triaged_word (v : json) : bool :=
  match v with
  | JStr s => String.eqb s "triaged"
  | _ => false
  end.

Section Routes.
Context `{Host}.
Variable triage_dir : string.

(** [_handle_get_findings]. *)
Definition _handle_get_findings (fs : store) : Server.outcome :=
  match Server.load_json fs (triage_dir ++ "/findings.json") with
  | Ok data => Server._send_json data 200
  | Raise e => Server.Crashed e
  end.

(** [_handle_get_state].  On a dict the key is added when missing.  A list
    or a string passes the membership test when it holds "triaged" and is
    then sent as it is; otherwise the item assignment raises [TypeError], as
    the membership test itself does on any other value. *)
Definition _handle_get_state (fs : store) : Server.outcome :=
  match Server.load_json fs (Server.state_json triage_dir) with
  | Raise e => Server.Crashed e
  | Ok (JObj data) =>
      let data :=
        match data !! "triaged" with
        | None => <["triaged" := JObj ∅]> data
        | Some _ => data
        end in
      Server._send_json (JObj data) 200
  | Ok (JArr items) =>
      if existsb is_triaged_word items
      then Server._send_json (JArr items) 200
      else Server.Crashed TypeError
  | Ok (JStr s) =>
      if Templates.contains "triaged" s
      then Server._send_json (JStr s) 200
      else Server.Crashed TypeError
  | Ok _ => Server.Crashed TypeError
  end.

(** [data.get("repo", "")]: only a dict has [get]. *)
Definition get_repo (data : json) : result json :=
  match data with
  | JObj fields => Ok (Server.body_get fields "repo" (JStr ""))
  | _ => Raise AttributeError
  end.

(** The loop of [main] over the files that may name the repository: it
    stops at the first one whose [repo] is true. *)
Fixpoint search_repo (fs : store) (fnames : list string) (repo : json) : result json :=
  match fnames with
  | [] => Ok repo
  | fname :: rest =>
      match Server.load_json fs (triage_dir ++ "/" ++ fname) with
      | Raise e => Raise e
      | Ok data =>
          match get_repo data with
          | Raise e => Raise e
          | Ok repo => if json_truthy repo then Ok repo else search_repo fs rest repo
          end
      end
  end.

(** The repository [main] serves: [--repo] when given and not empty,
    otherwise the first [repo] found; [None] is the exit with status 1. *)
Definition resolve_repo (arg : option string) (fs : store) : result (option json) :=
  match arg with
  | Some repo =>
      if truthy repo then Ok (Some (JStr repo))
      else match search_repo fs ["findings.json"; "issues.json"] (JStr repo) with
           | Raise e => Raise e
           | Ok repo => Ok (if json_truthy repo then Some repo else None)
           end
  | None =>
      match search_repo fs ["findings.json"; "issues.json"] JNull with
      | Raise e => Raise e
      | Ok repo => Ok (if json_truthy repo then Some repo else None)
      end
  end.

End Routes.

(** The ways handling an action request can end, as far as the files go:
    rejected with the world untouched, ended without a record with the
    files untouched, or recorded with the files [mark_triaged] returned. *)
Definition ends_well `{Host} (dir : string) (w : world) (out : Server.outcome)
    (w' : world) : Prop :=
  (w' = w ∧ ∃ p, out = Server.Sent 400 p)
  ∨ (files w' = files w
     ∧ ((∃ p, out = Server.Sent 502 p) ∨ (∃ e, out = Server.Crashed e)
        ∨ out = Server.OutsideSchema))
  ∨ (∃ n a cp note fs' entry,
       out = Server.Sent 200 (ok_payload a entry)
       ∧ Server.mark_triaged (files w) dir n a cp note = Ok (fs', entry)
       ∧ files w' = fs').

(** What handling a request leaves in the temporary directory: what was
    there, less the comment file when one was written and unlinked. *)
Definition swept `{Host} (w w' : world) : Prop :=
  tmpfiles w' = tmpfiles w
  ∨ tmpfiles w' = delete named_temporary_file (tmpfiles w).

End Routes.

(* ===================================================================== *)
(** ** templates.py: the summary bar and the body preview *)
(* ===================================================================== *)

Module Pages.

(** The verdict the pages show for an issue:
    [findings_by_num.get(i["number"], {}).get("verdict", "pending")]. *)
Definition shown_verdict (findings_by_num : gmap Z Templates.finding)
    (i : Templates.issue) : string :=
  default "pending" (Templates.finding_get Templates.verdict findings_by_num i).

(** The counting loop of [_build_summary_bar]. *)
Definition count_verdicts (issues : list Templates.issue)
    (findings_by_num : gmap Z Templates.finding) : gmap string nat :=
  foldl (fun verdicts i =>
           let v := shown_verdict findings_by_num i in
           <[v := (default 0 (verdicts !! v) + 1)%nat]> verdicts)
        ∅ issues.

(** The verdicts that get an item in the bar, in its order. *)
Definition summary_verdicts : list string :=
  ["likely_resolved"; "feature_implemented"; "still_open";
   "needs_investigation"; "stale_wontfix"; "pending"].

(** The bar, up to markup: the total, the items with the verdict each one
    is for and its count, and the number of triage entries. *)
Record summary : Type := Summary {
  total : nat;
  items : list (string * nat);
  triaged_count : nat
}.

Definition _build_summary_bar (issues : list Templates.issue)
    (findings_by_num : gmap Z Templates.finding) (triaged : gmap string json)
  : summary :=
  let verdicts := count_verdicts issues findings_by_num in
  Summary (length issues)
    (omap (fun v =>
             let count := default 0%nat (verdicts !! v) in
             if (count =? 0)%nat then None else Some (v, count))
          summary_verdicts)
    (size triaged).

(** The body preview of [render_issue_detail]: [body] is the issue's body,
    [None] when the key is missing or null. *)
Definition truncation_mark : string :=
  String "010" (String "010" "... (truncated)").

Definition body_preview (body : option string) : string :=
  let body := default "" body in
  let preview := String.substring 0 2000 body in
  if (2000 <? String.length body)%nat then preview ++ truncation_mark else preview.

End Pages.

(* ===================================================================== *)
(** ** Facts about the persistent store *)
(* ===================================================================== *)

Import Server.

Section StoreFacts.
Context `{Host}.

Lemma save_json_lookup (fs : store) (path : string) (data : json) :
  save_json fs path data !! path = Some (json_dumps data).
Proof.
  unfold save_json, rename.
  rewrite lookup_insert_eq.
  apply lookup_insert_eq.
Qed.

Lemma save_json_lookup_other (fs : store) (path p : string) (data : json) :
  p ≠ path ->
  save_json fs path data !! p
  = if decide (p = with_suffix_tmp path) then None else fs !! p.
Proof.
  intros Hp. unfold save_json, rename.
  rewrite lookup_insert_eq.
  rewrite lookup_insert_ne by congruence.
  destruct (decide (p = with_suffix_tmp path)) as [->|Hne].
  - apply lookup_delete_eq.
  - rewrite lookup_delete_ne by congruence.
    apply lookup_insert_ne. congruence.
Qed.

Lemma load_json_missing (fs : store) (path : string) :
  fs !! path = None -> load_json fs path = Ok (JObj ∅).
Proof. intros Hnone. unfold load_json. by rewrite Hnone. Qed.

Lemma load_after_save (fs : store) (path : string) (data : json) :
  json_loads (json_dumps data) = Some data ->
  load_json (save_json fs path data) path = Ok data.
Proof.
  intros Hcodec. unfold load_json.
  rewrite save_json_lookup. by rewrite Hcodec.
Qed.

End StoreFacts.

(** C4. Saving a document and loading the same path gives the document
    back, for every document the codec reads back from its own output;
    every other path holds what it held before, except the [.tmp] sibling,
    which does not exist afterwards; and loading a path that has no file
    gives the empty mapping. *)
Theorem save_load_round_trip `{Host} (fs : store) (path : string) (D : json) :
  json_loads (json_dumps D) = Some D ->
  load_json (save_json fs path D) path = Ok D
  ∧ (∀ p, p ≠ path ->
       save_json fs path D !! p
       = if decide (p = with_suffix_tmp path) then None else fs !! p)
  ∧ (∀ fs' missing, fs' !! missing = None -> load_json fs' missing = Ok (JObj ∅)).
Proof.
  intros Hcodec. split; [|split].
  - by apply load_after_save.
  - intros p Hp. by apply save_json_lookup_other.
  - apply load_json_missing.
Qed.

Lemma save_load_round_trip_witness :
  @json_loads Reference.host (@json_dumps Reference.host (JObj Reference.sample_state))
  = Some (JObj Reference.sample_state)
  ∧ @load_json Reference.host
      (@save_json Reference.host Reference.sample_files "/t/triage/out.json"
         (JObj Reference.sample_state))
      "/t/triage/out.json"
    = Ok (JObj Reference.sample_state)
  ∧ @save_json Reference.host Reference.sample_files "/t/triage/out.json"
      (JObj Reference.sample_state) !! "/t/triage/out.tmp" = None.
Proof.
  assert (Hc : @json_loads Reference.host
                 (@json_dumps Reference.host (JObj Reference.sample_state))
               = Some (JObj Reference.sample_state)) by (vm_compute; reflexivity).
  destruct (@save_load_round_trip Reference.host Reference.sample_files
              "/t/triage/out.json" (JObj Reference.sample_state) Hc)
    as (Hload & Hother & _).
  split; [exact Hc|]. split; [exact Hload|].
  rewrite Hother by discriminate.
  vm_compute. reflexivity.
Defined.

(* ===================================================================== *)
(** ** Facts about the triage state *)
(* ===================================================================== *)

Lemma truthy_true (s : string) : truthy s = true <-> s ≠ "".
Proof.
  unfold truthy. destruct (String.eqb_spec s ""); simpl; split; congruence.
Qed.

Lemma truthy_false (s : string) : truthy s = false <-> s = "".
Proof.
  unfold truthy. destruct (String.eqb_spec s ""); simpl; split; congruence.
Qed.

Lemma no_pair_with_key {V : Type} (l : list (string * V)) (k : string) :
  k ∉ l.*1 -> filter (fun kv => kv.1 = k) l = [].
Proof.
  induction l as [|[k' v'] l IH]; intros Hk; [done|].
  simpl in Hk. apply not_elem_of_cons in Hk as [Hne Hk].
  rewrite filter_cons_False by (simpl; congruence). by apply IH.
Qed.

(** Among the pairs of a map there is exactly one for a key that is bound. *)
Lemma pairs_with_key {V : Type} (l : list (string * V)) (k : string) (v : V) :
  NoDup l.*1 -> (k, v) ∈ l ->
  filter (fun kv => kv.1 = k) l = [(k, v)].
Proof.
  induction l as [|[k' v'] l IH]; intros Hnd Hin.
  - by apply elem_of_nil in Hin.
  - simpl in Hnd. apply NoDup_cons in Hnd as [Hfresh Hnd].
    apply elem_of_cons in Hin as [Heq|Hin].
    + injection Heq as <- <-.
      rewrite filter_cons_True by done. f_equal.
      by apply no_pair_with_key.
    + assert (k' ≠ k) as Hne.
      { intros ->. apply Hfresh. apply list_elem_of_fmap. by exists (k, v). }
      rewrite filter_cons_False by (simpl; congruence). by apply IH.
Qed.

Lemma one_entry_per_key (m : gmap string json) (k : string) (v : json) :
  m !! k = Some v ->
  filter (fun kv => kv.1 = k) (map_to_list m) = [(k, v)].
Proof.
  intros Hk. apply pairs_with_key.
  - apply NoDup_fst_map_to_list.
  - by apply elem_of_map_to_list.
Qed.

(** [str] tells issue numbers apart. *)
Lemma py_str_int_inj (a b : Z) : py_str (PyInt a) = py_str (PyInt b) -> a = b.
Proof.
  simpl. intros Heq.
  assert (Hnil : forall z, Z.to_int z ≠ Decimal.Pos Decimal.Nil
                        ∧ Z.to_int z ≠ Decimal.Neg Decimal.Nil).
  { intros [|p|p]; simpl; split; try discriminate;
      intros [= Hp]; by apply Unsigned.to_uint_nonnil in Hp. }
  apply (f_equal NilZero.int_of_string) in Heq.
  rewrite !NilZero.isi in Heq by apply Hnil.
  injection Heq as Heq.
  rewrite <- (DecimalZ.of_to a), <- (DecimalZ.of_to b). by rewrite Heq.
Qed.

Section StateFacts.
Context `{Host}.

Lemma new_entry_action (action : string) (cp : bool) (note : json) :
  new_entry action cp note !! "action" = Some (JStr action).
Proof.
  unfold new_entry. destruct cp, (json_truthy note);
    repeat (rewrite lookup_insert_ne by done); apply lookup_insert_eq.
Qed.

Lemma new_entry_at (action : string) (cp : bool) (note : json) :
  new_entry action cp note !! "at" = Some (JStr utcnow_isoformat).
Proof.
  unfold new_entry. destruct cp, (json_truthy note);
    repeat (rewrite lookup_insert_ne by done); apply lookup_insert_eq.
Qed.

Lemma new_entry_comment_posted (action : string) (cp : bool) (note : json) :
  new_entry action cp note !! "comment_posted"
  = if cp then Some (JBool true) else None.
Proof.
  unfold new_entry. destruct cp, (json_truthy note);
    repeat (rewrite lookup_insert_ne by done);
    try apply lookup_insert_eq; apply lookup_empty.
Qed.

Lemma new_entry_note (action : string) (cp : bool) (note : json) :
  new_entry action cp note !! "note"
  = if json_truthy note then Some note else None.
Proof.
  unfold new_entry. destruct (json_truthy note).
  - apply lookup_insert_eq.
  - destruct cp; repeat (rewrite lookup_insert_ne by done); apply lookup_empty.
Qed.

(** The same for a note that is a string. *)
Lemma new_entry_note_str (action : string) (cp : bool) (note : string) :
  new_entry action cp (JStr note) !! "note"
  = if decide (note = "") then None else Some (JStr note).
Proof.
  rewrite new_entry_note. simpl. destruct (truthy note) eqn:Hnote.
  - apply truthy_true in Hnote. by rewrite decide_False.
  - apply truthy_false in Hnote. by rewrite decide_True.
Qed.

Lemma new_entry_other (action : string) (cp : bool) (note : json) (k : string) :
  k ∉ ["action"; "at"; "comment_posted"; "note"] ->
  new_entry action cp note !! k = None.
Proof.
  intros Hk.
  repeat (apply not_elem_of_cons in Hk as [? Hk]).
  unfold new_entry. destruct cp, (json_truthy note);
    repeat (rewrite lookup_insert_ne by done); apply lookup_empty.
Qed.

(** What [mark_triaged] does on a state document whose [triaged], when
    present, is a dict. *)
Lemma mark_triaged_ok (fs : store) (dir : string) (state triaged : gmap string json)
    (n : pyint) (action : string) (cp : bool) (note : json) :
  load_json fs (state_json dir) = Ok (JObj state) ->
  triaged_dict state = Some triaged ->
  mark_triaged fs dir n action cp note
  = Ok (save_json fs (state_json dir)
          (JObj (<["triaged" := JObj (<[py_str n := JObj (new_entry action cp note)]> triaged)]>
                   state)),
        new_entry action cp note).
Proof.
  intros Hload Hdict. unfold mark_triaged. rewrite Hload.
  unfold triaged_dict in Hdict.
  destruct (state !! "triaged") as [v|] eqn:Hv.
  - destruct v; try discriminate. injection Hdict as <-.
    by rewrite Hv.
  - injection Hdict as <-.
    rewrite lookup_insert_eq. by rewrite insert_insert_eq.
Qed.

End StateFacts.

(** [mark_triaged] without its hypotheses: either it raises, or the state
    was one it can update. *)
Lemma mark_triaged_inv `{Host} (fs : store) (dir : string) (n : pyint)
    (action : string) (cp : bool) (note : json) :
  (∃ state triaged,
     load_json fs (state_json dir) = Ok (JObj state)
     ∧ triaged_dict state = Some triaged)
  ∨ (mark_triaged fs dir n action cp note = Raise JSONDecodeError
     ∧ load_json fs (state_json dir) = Raise JSONDecodeError)
  ∨ (mark_triaged fs dir n action cp note = Raise TypeError
     ∧ ∃ data, load_json fs (state_json dir) = Ok data
               ∧ ∀ state, data = JObj state -> triaged_dict state = None).
Proof.
  unfold mark_triaged.
  destruct (load_json fs (state_json dir)) as [data|e] eqn:Hload.
  - destruct data as [| | | | | |state];
      try (right; right; split; [reflexivity|]; eexists; split; [reflexivity|];
           intros ? [=]).
    destruct (triaged_dict state) as [triaged|] eqn:Hdict.
    + left. by exists state, triaged.
    + right. right. unfold triaged_dict in Hdict.
      destruct (state !! "triaged") as [v|] eqn:Hv; [|discriminate].
      rewrite Hv. destruct v; try discriminate;
        (split; [reflexivity|]; eexists; split; [reflexivity|]);
        intros ? [= <-]; unfold triaged_dict; by rewrite Hv.
  - right. left. unfold load_json in Hload.
    destruct (fs !! state_json dir); [|discriminate].
    destruct (json_loads _); [discriminate|]. injection Hload as <-. done.
Qed.

(** On a state document that [mark_triaged] cannot update, it raises. *)
Lemma mark_triaged_raises `{Host} (fs : store) (dir : string) (n : pyint)
    (action : string) (cp : bool) (note : json) :
  ¬ (∃ state triaged,
       load_json fs (state_json dir) = Ok (JObj state)
       ∧ triaged_dict state = Some triaged) ->
  ∃ e, mark_triaged fs dir n action cp note = Raise e
       ∧ (e = JSONDecodeError ∨ e = TypeError).
Proof.
  intros Hbad.
  destruct (mark_triaged_inv fs dir n action cp note)
    as [Hgood|[[Hm _]|[Hm _]]]; [done|..]; eexists; split; eauto.
Qed.

(** C3. On a state document whose [triaged] is a dict (or missing),
    [mark_triaged] writes a state whose [triaged] dict binds [str(number)]
    to the new entry, and the dict's pairs hold that key exactly once; the
    entry is built afresh whatever was bound before: it has [action] and
    [at], [comment_posted] only when true, [note] only when the note
    passed is true in Python's sense, which for a string is when it is
    non-empty, and no other field. *)
Theorem mark_triaged_replaces_entry `{Host} (fs : store) (dir : string)
    (state triaged : gmap string json) (n : pyint) (action : string)
    (cp : bool) (note : json) :
  load_json fs (state_json dir) = Ok (JObj state) ->
  triaged_dict state = Some triaged ->
  ∃ (entry triaged' : gmap string json) (fs' : store),
    mark_triaged fs dir n action cp note = Ok (fs', entry)
    ∧ fs' !! state_json dir = Some (json_dumps (JObj (<["triaged" := JObj triaged']> state)))
    ∧ triaged' !! py_str n = Some (JObj entry)
    ∧ filter (fun kv => kv.1 = py_str n) (map_to_list triaged') = [(py_str n, JObj entry)]
    ∧ entry !! "action" = Some (JStr action)
    ∧ entry !! "at" = Some (JStr utcnow_isoformat)
    ∧ entry !! "comment_posted" = (if cp then Some (JBool true) else None)
    ∧ entry !! "note" = (if json_truthy note then Some note else None)
    ∧ (∀ s, note = JStr s ->
            entry !! "note" = (if decide (s = "") then None else Some (JStr s)))
    ∧ ∀ k, k ∉ ["action"; "at"; "comment_posted"; "note"] -> entry !! k = None.
Proof.
  intros Hload Hdict.
  eexists (new_entry action cp note), _, _.
  split; [by apply mark_triaged_ok|].
  split; [apply save_json_lookup|].
  split; [apply lookup_insert_eq|].
  split; [apply one_entry_per_key, lookup_insert_eq|].
  split; [apply new_entry_action|].
  split; [apply new_entry_at|].
  split; [apply new_entry_comment_posted|].
  split; [apply new_entry_note|].
  split; [intros s ->; apply new_entry_note_str|].
  apply new_entry_other.
Qed.

Lemma mark_triaged_replaces_entry_witness :
  @load_json Reference.host Reference.sample_files (state_json Reference.triage_dir)
  = Ok (JObj Reference.sample_state)
  ∧ triaged_dict Reference.sample_state = Some Reference.sample_triaged
  ∧ Reference.sample_triaged !! "101" = Some (JObj Reference.old_entry)
  ∧ ∃ (entry triaged' : gmap string json) (fs' : store),
      @mark_triaged Reference.host Reference.sample_files Reference.triage_dir
        (PyInt 101) "skipped" false (JStr "") = Ok (fs', entry)
      ∧ triaged' !! "101" = Some (JObj entry)
      ∧ entry !! "action" = Some (JStr "skipped")
      ∧ entry !! "comment_posted" = None
      ∧ entry !! "note" = None.
Proof.
  assert (Hload : @load_json Reference.host Reference.sample_files
                    (state_json Reference.triage_dir)
                  = Ok (JObj Reference.sample_state)) by (vm_compute; reflexivity).
  assert (Hdict : triaged_dict Reference.sample_state = Some Reference.sample_triaged)
    by (vm_compute; reflexivity).
  split; [exact Hload|]. split; [exact Hdict|].
  split; [vm_compute; reflexivity|].
  destruct (@mark_triaged_replaces_entry Reference.host _ _ _ _
              (PyInt 101) "skipped" false (JStr "") Hload Hdict)
    as (entry & triaged' & fs' & Hrun & _ & Hkey & _ & Hact & _ & Hcp & Hnote & _).
  exists entry, triaged', fs'. auto.
Defined.

(** C9. On a state document whose [triaged] is a dict (or missing),
    [mark_triaged] writes a state that agrees with the loaded one on every
    top-level key but [triaged], and whose [triaged] dict agrees with the
    loaded one on every key but [str(number)], hence on the key of every
    other issue number. *)
Theorem mark_triaged_frame `{Host} (fs : store) (dir : string)
    (state triaged : gmap string json) (n : pyint) (action : string)
    (cp : bool) (note : json) :
  load_json fs (state_json dir) = Ok (JObj state) ->
  triaged_dict state = Some triaged ->
  ∃ (entry state' triaged' : gmap string json) (fs' : store),
    mark_triaged fs dir n action cp note = Ok (fs', entry)
    ∧ fs' !! state_json dir = Some (json_dumps (JObj state'))
    ∧ state' !! "triaged" = Some (JObj triaged')
    ∧ (∀ k, k ≠ "triaged" -> state' !! k = state !! k)
    ∧ (∀ k, k ≠ py_str n -> triaged' !! k = triaged !! k)
    ∧ (∀ z m : Z, n = PyInt z -> m ≠ z ->
         triaged' !! py_str (PyInt m) = triaged !! py_str (PyInt m)).
Proof.
  intros Hload Hdict.
  eexists (new_entry action cp note), _, _, _.
  split; [by apply mark_triaged_ok|].
  split; [apply save_json_lookup|].
  split; [apply lookup_insert_eq|].
  split; [intros k Hk; by apply lookup_insert_ne|].
  split; [intros k Hk; by apply lookup_insert_ne|].
  intros z m -> Hm. apply lookup_insert_ne.
  intros Heq. apply Hm. symmetry. by apply py_str_int_inj.
Qed.

Lemma mark_triaged_frame_witness :
  @load_json Reference.host Reference.sample_files (state_json Reference.triage_dir)
  = Ok (JObj Reference.sample_state)
  ∧ triaged_dict Reference.sample_state = Some Reference.sample_triaged
  ∧ ∃ (entry state' triaged' : gmap string json) (fs' : store),
      @mark_triaged Reference.host Reference.sample_files Reference.triage_dir
        (PyInt 102) "closed" true (JStr "") = Ok (fs', entry)
      ∧ state' !! "schema" = Some (JInt 1)
      ∧ triaged' !! "101" = Some (JObj Reference.old_entry).
Proof.
  assert (Hload : @load_json Reference.host Reference.sample_files
                    (state_json Reference.triage_dir)
                  = Ok (JObj Reference.sample_state)) by (vm_compute; reflexivity).
  assert (Hdict : triaged_dict Reference.sample_state = Some Reference.sample_triaged)
    by (vm_compute; reflexivity).
  split; [exact Hload|]. split; [exact Hdict|].
  destruct (@mark_triaged_frame Reference.host _ _ _ _
              (PyInt 102) "closed" true (JStr "") Hload Hdict)
    as (entry & state' & triaged' & fs' & Hrun & _ & _ & Htop & Hkeys & _).
  exists entry, state', triaged', fs'.
  split; [exact Hrun|]. split.
  - rewrite Htop by discriminate. vm_compute. reflexivity.
  - rewrite Hkeys by discriminate. vm_compute. reflexivity.
Defined.

(* ===================================================================== *)
(** ** Facts about the action handler *)
(* ===================================================================== *)

#[local] Open Scope list_scope.

Section HandlerFacts.
Context `{Host}.
Variables (dir repo : string).

Lemma run_gh_inv (args : list string) (w : world) :
  ∃ ok err, _run_gh args w = ((ok, err), log (GhCall args ok err) w)
            ∧ (ok = true -> err = "").
Proof.
  unfold _run_gh. destruct (subprocess_run w args) as [|stderr shown|]; simpl;
    eexists _, _; (split; [reflexivity|]); intros; congruence.
Qed.

(** [_run_gh] reports what [subprocess.run] did. *)
Lemma run_gh_completed (args : list string) (w : world) :
  subprocess_run w args = Completed ->
  _run_gh args w = ((true, ""), log (GhCall args true "") w).
Proof. intros Hrun. unfold _run_gh. by rewrite Hrun. Qed.

Lemma run_gh_failed (args : list string) (w : world) :
  subprocess_run w args ≠ Completed ->
  _run_gh args w
  = ((false, reported (subprocess_run w args)),
     log (GhCall args false (reported (subprocess_run w args))) w).
Proof.
  intros Hrun. unfold _run_gh.
  by destruct (subprocess_run w args) as [|[text|] shown|].
Qed.

Lemma handle_valid_request (raw : string) (n : pyint) (a : string)
    (comment labels : json) (w : world) :
  valid_request raw = Some (n, a, comment, labels) ->
  _handle_action dir repo raw w = dispatch dir repo n a comment labels w.
Proof.
  unfold valid_request, _handle_action.
  destruct (json_loads raw) as [[| | | | | |body]|]; try discriminate.
  destruct (isinstance_int _) as [n'|]; [|discriminate].
  destruct (as_str (body_get body "action" JNull)) as [a'|]; [|discriminate].
  destruct (0 <? int_value n')%Z eqn:Hpos; [|discriminate].
  destruct (bool_decide (a' ∈ action_names)) eqn:Hact; [|discriminate].
  simpl. intros [= -> -> <- <-].
  apply Z.ltb_lt in Hpos.
  destruct (int_value n <=? 0)%Z eqn:Hle; [apply Z.leb_le in Hle; lia|].
  reflexivity.
Qed.

(** A list of strings is iterated item by item. *)
Lemma label_items_list (ls : list string) :
  label_items (JArr (JStr <$> ls)) = Some (Ok (JStr <$> ls)).
Proof. by destruct ls. Qed.

Lemma label_items_cases (labels : json) :
  label_items labels = None
  ∨ label_items labels = Some (Raise TypeError)
  ∨ ∃ items, label_items labels = Some (Ok items).
Proof.
  unfold label_items. destruct (json_truthy labels); simpl; [|eauto].
  destruct labels as [| | | | | |fields]; eauto.
  destruct (map_to_list fields) as [|[k v] [|kv rest]]; eauto.
Qed.

(** What the label loop can do: run every command, stop at a command that
    failed, or stop at an item that is not a string. *)
Lemma add_labels_spec (n : pyint) (items : list json) (w : world) :
  ∃ w', files w' = files w ∧ tmpfiles w' = tmpfiles w ∧
    ((∃ ls, items = JStr <$> ls
            ∧ add_labels repo n items w = (Ok None, w')
            ∧ trace w' = trace w ++ (went_through <$> (label_args repo n <$> ls)))
     ∨ (∃ pre l post err,
          items = (JStr <$> pre) ++ JStr l :: post
          ∧ add_labels repo n items w = (Ok (Some (l, err)), w')
          ∧ trace w' = trace w ++ (went_through <$> (label_args repo n <$> pre))
                        ++ [GhCall (label_args repo n l) false err])
     ∨ (∃ pre x post,
          items = (JStr <$> pre) ++ x :: post
          ∧ as_str x = None
          ∧ add_labels repo n items w = (Raise TypeError, w')
          ∧ trace w' = trace w ++ (went_through <$> (label_args repo n <$> pre)))).
Proof.
  revert w. induction items as [|x items IH]; intros w.
  - exists w. split; [done|]. split; [done|]. left. exists [].
    split; [done|]. split; [done|]. simpl. by rewrite app_nil_r.
  - destruct (as_str x) as [l|] eqn:Hx.
    + destruct x; try discriminate. injection Hx as ->.
      cbn [add_labels].
      destruct (run_gh_inv (label_args repo n l) w) as (ok & err & -> & Herr).
      destruct ok.
      * rewrite Herr by done.
        destruct (IH (log (GhCall (label_args repo n l) true "") w))
          as (w' & Hfiles & Htmp
              & [(ls & -> & -> & Htr)
                |[(pre & l' & post & err' & -> & -> & Htr)
                 |(pre & x & post & -> & Hx & -> & Htr)]]);
          exists w'; (split; [done|]); (split; [done|]).
        -- left. exists (l :: ls). split; [done|]. split; [done|].
           rewrite Htr. simpl. by rewrite <- app_assoc.
        -- right. left. exists (l :: pre), l', post, err'.
           split; [done|]. split; [done|].
           rewrite Htr. simpl. by rewrite <- app_assoc.
        -- right. right. exists (l :: pre), x, post.
           split; [done|]. split; [done|]. split; [done|].
           rewrite Htr. simpl. by rewrite <- app_assoc.
      * exists (log (GhCall (label_args repo n l) false err) w).
        split; [done|]. split; [done|]. right. left. by exists [], l, items, err.
    + exists w. split; [done|]. split; [done|]. right. right.
      exists [], x, items. split; [done|]. split; [done|].
      split; [by destruct x|]. simpl. by rewrite app_nil_r.
Qed.

Lemma post_comment_spec (n : pyint) (c : string) (w : world) :
  ∃ ok err w',
    post_comment repo n c w = ((ok, err), w')
    ∧ files w' = files w
    ∧ tmpfiles w' = delete named_temporary_file (tmpfiles w)
    ∧ trace w' = trace w ++ [GhCall (comment_args repo n named_temporary_file) ok err]
    ∧ (ok = true -> err = "").
Proof.
  unfold post_comment.
  destruct (run_gh_inv (comment_args repo n named_temporary_file)
              (World (files w) (<[named_temporary_file := c]> (tmpfiles w)) (trace w)))
    as (ok & err & -> & Herr).
  eexists ok, err, _. split; [reflexivity|]. split; [done|].
  split; [apply delete_insert_eq|]. done.
Qed.

Lemma record_triage_spec (n : pyint) (a : string) (cp : bool) (note : json)
    (w : world) :
  ∃ out w',
    recorded a (record_triage dir n a cp note w) = (out, w')
    ∧ tmpfiles w' = tmpfiles w
    ∧ trace w' = trace w ++ [MarkTriaged n a cp note]
    ∧ ((∃ fs' entry, mark_triaged (files w) dir n a cp note = Ok (fs', entry)
                     ∧ out = Sent 200 (success a entry) ∧ files w' = fs')
       ∨ (∃ e, mark_triaged (files w) dir n a cp note = Raise e
               ∧ out = Crashed e ∧ files w' = files w)).
Proof.
  unfold recorded, record_triage. simpl.
  destruct (mark_triaged (files w) dir n a cp note) as [[fs' entry]|e] eqn:Hm.
  - eexists _, _. split; [reflexivity|]. split; [done|]. split; [done|].
    left. by exists fs', entry.
  - eexists _, _. split; [reflexivity|]. split; [done|]. split; [done|].
    right. by exists e.
Qed.

(** The last two steps of [_do_close]: the close command, then the record. *)
Lemma close_and_record (n : pyint) (c reason : string) (w : world) :
  ∃ out w' evs,
    (let '((ok, err), w1) := _run_gh (close_args repo n reason) w in
     if negb ok then
       (_send_json (failure ("Failed to close issue: " ++ err)%string) 502, w1)
     else
       recorded "closed" (record_triage dir n "closed" (truthy (strip c)) (JStr "") w1))
    = (out, w')
    ∧ tmpfiles w' = tmpfiles w
    ∧ trace w' = trace w ++ evs
    ∧ ((evs = [went_through (close_args repo n reason);
               MarkTriaged n "closed" (truthy (strip c)) (JStr "")]
        ∧ ((∃ fs' entry,
              mark_triaged (files w) dir n "closed" (truthy (strip c)) (JStr "")
              = Ok (fs', entry)
              ∧ out = Sent 200 (success "closed" entry) ∧ files w' = fs')
           ∨ (∃ e, mark_triaged (files w) dir n "closed" (truthy (strip c)) (JStr "")
                   = Raise e
                   ∧ out = Crashed e ∧ files w' = files w)))
       ∨ (∃ err, evs = [GhCall (close_args repo n reason) false err]
                 ∧ out = Sent 502 (failure ("Failed to close issue: " ++ err)%string)
                 ∧ files w' = files w)).
Proof.
  destruct (run_gh_inv (close_args repo n reason) w) as (ok & err & -> & Herr).
  destruct ok; simpl.
  - rewrite Herr by done.
    destruct (record_triage_spec n "closed" (truthy (strip c)) (JStr "")
                (log (GhCall (close_args repo n reason) true "") w))
      as (out & w' & -> & Htmp & Htr & Hres).
    exists out, w', [went_through (close_args repo n reason);
                     MarkTriaged n "closed" (truthy (strip c)) (JStr "")].
    split; [done|]. split; [done|]. split.
    { rewrite Htr. simpl. by rewrite <- app_assoc. }
    left. split; [done|]. exact Hres.
  - eexists _, _, _. split; [reflexivity|]. split; [done|]. split; [done|].
    right. by exists err.
Qed.

(** What a close does.  Either every command goes through and the record
    is made; or a command fails, nothing follows it, and the files are as
    they were; or the handler raises before it records anything. *)
Lemma do_close_cases (n : pyint) (comment : json) (reason : string)
    (labels : json) (w : world) :
  ∃ out w' evs,
    _do_close dir repo n comment reason labels w = (out, w')
    ∧ trace w' = trace w ++ evs
    ∧ (tmpfiles w' = tmpfiles w
       ∨ tmpfiles w' = delete named_temporary_file (tmpfiles w))
    ∧ ((∃ c ls,
          comment = JStr c
          ∧ label_items labels = Some (Ok (JStr <$> ls))
          ∧ evs = (went_through <$>
                     (label_args repo n <$> ls)
                     ++ (if truthy (strip c)
                         then [comment_args repo n named_temporary_file] else [])
                     ++ [close_args repo n reason])
                  ++ [MarkTriaged n "closed" (truthy (strip c)) (JStr "")]
          ∧ ((∃ fs' entry,
                mark_triaged (files w) dir n "closed" (truthy (strip c)) (JStr "")
                = Ok (fs', entry)
                ∧ out = Sent 200 (success "closed" entry) ∧ files w' = fs')
             ∨ (∃ e, mark_triaged (files w) dir n "closed" (truthy (strip c)) (JStr "")
                     = Raise e
                     ∧ out = Crashed e ∧ files w' = files w)))
       ∨ (∃ pre args err text,
            evs = (went_through <$> pre) ++ [GhCall args false err]
            ∧ out = Sent 502 (failure text)
            ∧ files w' = files w)
       ∨ (∃ pre,
            evs = went_through <$> pre
            ∧ (out = OutsideSchema ∨ out = Crashed TypeError
               ∨ out = Crashed AttributeError)
            ∧ files w' = files w)).
Proof.
  unfold _do_close.
  destruct (label_items labels) as [[items|e]|] eqn:Hitems; cycle 1.
  { exists (Crashed e), w, []. split; [done|]. split; [by rewrite app_nil_r|].
    split; [by left|]. right. right. exists []. split; [done|]. split; [|done].
    destruct (label_items_cases labels) as [Hl|[Hl|[items Hl]]]; rewrite Hl in Hitems;
      try discriminate. injection Hitems as <-. by right; left. }
  { exists OutsideSchema, w, []. split; [done|]. split; [by rewrite app_nil_r|].
    split; [by left|]. right. right. exists []. split; [done|]. split; [by left|done]. }
  destruct (add_labels_spec n items w)
    as (w1 & Hf1 & Ht1
        & [(ls & -> & -> & Htr1)
          |[(pre & l & post & err & -> & -> & Htr1)
           |(pre & x & post & -> & Hx & -> & Htr1)]]).
  - destruct comment as [| | | |c| |];
      try (exists (Crashed AttributeError), w1; eexists; split; [done|];
           split; [exact Htr1|]; split; [by left|]; right; right;
           eexists; split; [done|]; split; [by right; right|done]).
    destruct (truthy (strip c)) eqn:Hc.
    + destruct (post_comment_spec n c w1)
        as (ok & err & w2 & -> & Hf2 & Ht2 & Htr2 & Herr).
      destruct ok; cbn [negb].
      * rewrite Herr in Htr2 by done.
        destruct (close_and_record n c reason w2)
          as (out & w' & evs & Hrun & Ht3 & Htr & Hres).
        rewrite Hc in Hrun, Hres. rewrite Hrun.
        exists out, w'. eexists. split; [done|]. split.
        { rewrite Htr, Htr2, Htr1. rewrite <- !app_assoc. reflexivity. }
        split; [right; by rewrite Ht3, Ht2, Ht1|].
        destruct Hres as [[-> Hres]|(err' & -> & -> & Hf3)].
        -- left. exists c, ls. split; [done|]. split; [done|]. rewrite Hc. split.
           { rewrite !fmap_app. simpl. rewrite <- !app_assoc. reflexivity. }
           rewrite Hf2, Hf1 in Hres. exact Hres.
        -- right. left.
           eexists ((label_args repo n <$> ls) ++ [comment_args repo n named_temporary_file]),
             (close_args repo n reason), err', _.
           split.
           { rewrite fmap_app. simpl. rewrite <- !app_assoc. reflexivity. }
           split; [done|]. congruence.
      * eexists _, w2, _. split; [done|]. split.
        { rewrite Htr2, Htr1. rewrite <- app_assoc. reflexivity. }
        split; [right; by rewrite Ht2, Ht1|].
        right. left.
        eexists (label_args repo n <$> ls), (comment_args repo n named_temporary_file),
          err, _.
        split; [done|]. split; [done|]. congruence.
    + cbn [negb].
      destruct (close_and_record n c reason w1)
        as (out & w' & evs & Hrun & Ht3 & Htr & Hres).
      rewrite Hc in Hrun, Hres. rewrite Hrun.
      exists out, w'. eexists. split; [done|]. split.
      { rewrite Htr, Htr1. rewrite <- !app_assoc. reflexivity. }
      split; [left; by rewrite Ht3, Ht1|].
      destruct Hres as [[-> Hres]|(err' & -> & -> & Hf3)].
      * left. exists c, ls. split; [done|]. split; [done|]. rewrite Hc. split.
        { rewrite !fmap_app. simpl. rewrite <- !app_assoc. reflexivity. }
        rewrite Hf1 in Hres. exact Hres.
      * right. left.
        eexists (label_args repo n <$> ls), (close_args repo n reason), err', _.
        split; [done|]. split; [done|]. congruence.
  - eexists _, w1, _. split; [done|]. split; [exact Htr1|]. split; [by left|].
    right. left.
    eexists (label_args repo n <$> pre), (label_args repo n l), err, _.
    split; [done|]. split; [done|]. done.
  - eexists _, w1, _. split; [done|]. split; [exact Htr1|]. split; [by left|].
    right. right. eexists. split; [done|]. split; [by right; left|done].
Qed.

(** The label loop when every command goes through. *)
Lemma add_labels_through (n : pyint) (ls : list string) (w : world) :
  (∀ i l, ls !! i = Some l ->
          subprocess_run
            (World (files w) (tmpfiles w)
               (trace w ++ (went_through <$> (label_args repo n <$> take i ls))))
            (label_args repo n l) = Completed) ->
  add_labels repo n (JStr <$> ls) w
  = (Ok None,
     World (files w) (tmpfiles w)
       (trace w ++ (went_through <$> (label_args repo n <$> ls)))).
Proof.
  revert w. induction ls as [|l ls IH]; intros w Hall.
  - simpl. rewrite app_nil_r. by destruct w.
  - cbn [fmap list_fmap add_labels].
    rewrite run_gh_completed; cycle 1.
    { specialize (Hall 0%nat l eq_refl). simpl in Hall. rewrite app_nil_r in Hall.
      by destruct w. }
    rewrite IH.
    + simpl. by rewrite <- app_assoc.
    + intros i l' Hl'. specialize (Hall (S i) l' Hl'). simpl in Hall.
      simpl. by rewrite <- app_assoc.
Qed.

(** The label loop goes on from where a first part left it. *)
Lemma add_labels_app (n : pyint) (xs ys : list json) (w w1 : world) :
  add_labels repo n xs w = (Ok None, w1) ->
  add_labels repo n (xs ++ ys) w = add_labels repo n ys w1.
Proof.
  revert w. induction xs as [|x xs IH]; intros w Hxs.
  - simpl in Hxs. by injection Hxs as ->.
  - destruct x; try discriminate. cbn [app add_labels] in *.
    destruct (_run_gh (label_args repo n s) w) as [[ok err] w2].
    destruct ok; [by apply IH|discriminate].
Qed.

End HandlerFacts.
Section CloseFailure.
Context `{Host}.
Variables (dir repo : string).

Lemma is_comment_call_label (n : pyint) (l : string) :
  is_comment_call (label_args repo n l) = false.
Proof. reflexivity. Qed.

Lemma is_comment_call_close (n : pyint) (reason : string) :
  is_comment_call (close_args repo n reason) = false.
Proof. reflexivity. Qed.

Lemma is_comment_call_comment (n : pyint) (tmppath : string) :
  is_comment_call (comment_args repo n tmppath) = true.
Proof. reflexivity. Qed.

Lemma no_comment_call_in_labels (n : pyint) (ls : list string) :
  existsb is_comment_call (label_args repo n <$> ls) = false.
Proof. induction ls as [|l ls IH]; [done|]. simpl. exact IH. Qed.

(** The world a label command is started in. *)
Lemma started_in_label (w : world) (c : string) (n : pyint) (pre : list string)
    (l : string) :
  started_in w c (label_args repo n <$> pre) (label_args repo n l)
  = World (files w) (tmpfiles w)
      (trace w ++ (went_through <$> (label_args repo n <$> pre))).
Proof.
  unfold started_in.
  by rewrite is_comment_call_label, no_comment_call_in_labels.
Qed.

Lemma log_started_in (e : event) (w : world) (c : string)
    (before : list (list string)) (args : list string) :
  log e (started_in w c before args)
  = World (files w) (tmpfiles (started_in w c before args))
      (trace w ++ (went_through <$> before) ++ [e]).
Proof. unfold log, started_in. cbn [files tmpfiles trace]. by rewrite <- app_assoc. Qed.

(** The label loop when the commands before a label go through and the
    command for that label does not. *)
Lemma add_labels_stops (n : pyint) (c : string) (pre : list string) (l : string)
    (post : list string) (w : world) :
  (∀ i a1, (label_args repo n <$> pre) !! i = Some a1 ->
           subprocess_run (started_in w c (take i (label_args repo n <$> pre)) a1) a1
           = Completed) ->
  subprocess_run (started_in w c (label_args repo n <$> pre) (label_args repo n l))
    (label_args repo n l) ≠ Completed ->
  add_labels repo n (JStr <$> (pre ++ l :: post)) w
  = (Ok (Some (l, reported
                    (subprocess_run
                       (started_in w c (label_args repo n <$> pre) (label_args repo n l))
                       (label_args repo n l)))),
     World (files w) (tmpfiles w)
       (trace w ++ (went_through <$> (label_args repo n <$> pre))
        ++ [GhCall (label_args repo n l) false
              (reported
                 (subprocess_run
                    (started_in w c (label_args repo n <$> pre) (label_args repo n l))
                    (label_args repo n l)))])).
Proof.
  intros Hpre Hfail.
  rewrite fmap_app, fmap_cons.
  rewrite (add_labels_app repo n _ _ w
             (World (files w) (tmpfiles w)
                (trace w ++ (went_through <$> (label_args repo n <$> pre))))).
  - cbn [add_labels]. rewrite started_in_label in Hfail |- *.
    rewrite (run_gh_failed _ _ Hfail). unfold log. cbn [files tmpfiles trace].
    by rewrite <- app_assoc.
  - apply add_labels_through. intros i l1 Hl1.
    specialize (Hpre i (label_args repo n l1)).
    rewrite list_lookup_fmap, Hl1 in Hpre. specialize (Hpre eq_refl).
    rewrite <- fmap_take, started_in_label in Hpre. exact Hpre.
Qed.

(** The label loop when every label command goes through. *)
Lemma add_labels_all (n : pyint) (c : string) (ls : list string) (w : world) :
  (∀ i a1, (label_args repo n <$> ls) !! i = Some a1 ->
           subprocess_run (started_in w c (take i (label_args repo n <$> ls)) a1) a1
           = Completed) ->
  add_labels repo n (JStr <$> ls) w
  = (Ok None,
     World (files w) (tmpfiles w)
       (trace w ++ (went_through <$> (label_args repo n <$> ls)))).
Proof.
  intros Hall. apply add_labels_through. intros i l1 Hl1.
  specialize (Hall i (label_args repo n l1)).
  rewrite list_lookup_fmap, Hl1 in Hall. specialize (Hall eq_refl).
  rewrite <- fmap_take, started_in_label in Hall. exact Hall.
Qed.

(** Where the first command that does not complete can be: among the label
    commands, or after them. *)
Lemma close_sequence_split (n : pyint) (ls : list string)
    (tail before : list (list string)) (args : list string)
    (after : list (list string)) :
  (label_args repo n <$> ls) ++ tail = before ++ args :: after ->
  (∃ pre l post,
     ls = pre ++ l :: post
     ∧ before = label_args repo n <$> pre
     ∧ args = label_args repo n l)
  ∨ (∃ before2,
       before = (label_args repo n <$> ls) ++ before2
       ∧ tail = before2 ++ args :: after).
Proof.
  intros Hsplit. apply app_eq_app in Hsplit as [mid [[Hls Hrest]|[Hbefore Htail]]].
  - destruct mid as [|a mid].
    + right. exists []. rewrite app_nil_r in Hls. rewrite app_nil_r.
      split; by symmetry.
    + left. simpl in Hrest. injection Hrest as -> _.
      apply fmap_app_inv in Hls as (pre & rest & -> & Hrest & ->).
      symmetry in Hrest. apply fmap_cons_inv in Hrest as (l & post & -> & -> & ->).
      by exists pre, l, post.
  - right. by exists mid.
Qed.

(** Either [subprocess.run] completes every command of a sequence, each in
    the world it is started in, or there is a first one it does not
    complete. *)
Lemma first_failure_or_all (w : world) (c : string) (cmds : list (list string)) :
  (∀ i a1, cmds !! i = Some a1 ->
           subprocess_run (started_in w c (take i cmds) a1) a1 = Completed)
  ∨ (∃ before args after,
       cmds = before ++ args :: after
       ∧ (∀ i a1, before !! i = Some a1 ->
                  subprocess_run (started_in w c (take i before) a1) a1 = Completed)
       ∧ subprocess_run (started_in w c before args) args ≠ Completed).
Proof.
  induction cmds as [|x l IH] using rev_ind.
  - left. intros i a1 Hi. by rewrite lookup_nil in Hi.
  - destruct IH as [Hall|(before & args & after & -> & Hbefore & Hfail)].
    + destruct (decide (subprocess_run (started_in w c l x) x = Completed))
        as [Hdone|Hfail].
      * left. intros i a1 Hi.
        destruct (decide (i < length l)%nat) as [Hlt|Hge].
        -- rewrite lookup_app_l in Hi by done.
           rewrite take_app_le by lia. by apply Hall.
        -- apply lookup_lt_Some in Hi as Hlen. rewrite length_app in Hlen.
           simpl in Hlen. assert (i = length l) as -> by lia.
           rewrite list_lookup_middle in Hi by done. injection Hi as <-.
           by rewrite take_app_length.
      * right. exists l, x, []. done.
    + right. exists before, args, (after ++ [x]).
      split; [by rewrite <- app_assoc|done].
Qed.

(** C1 on [_do_close]. *)
Lemma do_close_first_failure (n : pyint) (c reason : string) (labels : json)
    (ls : list string) (w : world) (before : list (list string))
    (args : list string) (after : list (list string)) :
  label_items labels = Some (Ok (JStr <$> ls)) ->
  (label_args repo n <$> ls)
  ++ (if truthy (strip c) then [comment_args repo n named_temporary_file] else [])
  ++ [close_args repo n reason]
  = before ++ args :: after ->
  (∀ i a1, before !! i = Some a1 ->
           subprocess_run (started_in w c (take i before) a1) a1 = Completed) ->
  subprocess_run (started_in w c before args) args ≠ Completed ->
  ∃ err text tmp,
    err = reported (subprocess_run (started_in w c before args) args)
    ∧ _do_close dir repo n (JStr c) reason labels w
      = (Sent 502 (failure text),
         World (files w) tmp
           (trace w ++ (went_through <$> before) ++ [GhCall args false err]))
    ∧ ((∃ l, l ∈ ls ∧ args = label_args repo n l
             ∧ text = ("Failed to add label '" ++ l ++ "': " ++ err)%string)
       ∨ (args = comment_args repo n named_temporary_file
          ∧ text = ("Failed to post comment: " ++ err)%string)
       ∨ (args = close_args repo n reason
          ∧ text = ("Failed to close issue: " ++ err)%string)).
Proof.
  intros Hitems Hsplit Hbefore Hfail.
  unfold _do_close. rewrite Hitems.
  apply close_sequence_split in Hsplit
    as [(pre & l & post & -> & -> & ->)|(before2 & -> & Htail)].
  - rewrite (add_labels_stops n c pre l post w Hbefore Hfail).
    eexists _, _, _. split; [reflexivity|]. split; [reflexivity|]. left. exists l.
    split; [|done]. apply elem_of_app. right. by left.
  - rewrite (add_labels_all n c ls w); cycle 1.
    { intros i a1 Hi. specialize (Hbefore i a1).
      rewrite lookup_app_l in Hbefore by (by apply lookup_lt_Some in Hi).
      specialize (Hbefore Hi).
      rewrite take_app_le in Hbefore
        by (apply lookup_lt_Some in Hi; lia).
      exact Hbefore. }
    destruct (truthy (strip c)) eqn:Hc.
    + destruct before2 as [|a1 before2].
      * (* the comment command fails *)
        simpl in Htail. injection Htail as <- <-.
        rewrite app_nil_r in Hfail |- *.
        unfold post_comment. cbn [files tmpfiles trace].
        assert (Hw : World (files w) (<[named_temporary_file := c]> (tmpfiles w))
                       (trace w ++ (went_through <$> (label_args repo n <$> ls)))
                     = started_in w c (label_args repo n <$> ls)
                         (comment_args repo n named_temporary_file)).
        { unfold started_in. by rewrite is_comment_call_comment. }
        rewrite Hw. rewrite (run_gh_failed _ _ Hfail), log_started_in. cbn [negb].
        eexists _, _, _. split; [reflexivity|]. split; [reflexivity|].
        right. by left.
      * (* the close command fails *)
        simpl in Htail. injection Htail as <- Htail.
        destruct before2 as [|a2 before2]; cycle 1.
        { simpl in Htail. injection Htail as _ Htail. by destruct before2. }
        simpl in Htail. injection Htail as <- <-.
        unfold post_comment. cbn [files tmpfiles trace].
        assert (Hw : World (files w) (<[named_temporary_file := c]> (tmpfiles w))
                       (trace w ++ (went_through <$> (label_args repo n <$> ls)))
                     = started_in w c (label_args repo n <$> ls)
                         (comment_args repo n named_temporary_file)).
        { unfold started_in. by rewrite is_comment_call_comment. }
        rewrite Hw. rewrite run_gh_completed; cycle 1.
        { specialize (Hbefore (length (label_args repo n <$> ls))
                        (comment_args repo n named_temporary_file)).
          rewrite list_lookup_middle in Hbefore by done.
          specialize (Hbefore eq_refl).
          rewrite take_app_length in Hbefore. exact Hbefore. }
        cbn [negb log files tmpfiles trace].
        assert (Hw' : World (files (started_in w c (label_args repo n <$> ls)
                                      (comment_args repo n named_temporary_file)))
                        (delete named_temporary_file
                           (tmpfiles (started_in w c (label_args repo n <$> ls)
                                        (comment_args repo n named_temporary_file))))
                        (trace (started_in w c (label_args repo n <$> ls)
                                  (comment_args repo n named_temporary_file))
                         ++ [GhCall (comment_args repo n named_temporary_file) true ""])
                      = started_in w c
                          ((label_args repo n <$> ls)
                           ++ [comment_args repo n named_temporary_file])
                          (close_args repo n reason)).
        { unfold started_in. rewrite is_comment_call_comment, is_comment_call_close.
          rewrite existsb_app. simpl. rewrite orb_true_r.
          cbn [files tmpfiles trace]. rewrite delete_insert_eq.
          rewrite fmap_app. simpl. by rewrite <- app_assoc. }
        rewrite Hw'. rewrite (run_gh_failed _ _ Hfail), log_started_in. cbn [negb].
        eexists _, _, _. split; [reflexivity|]. split; [reflexivity|].
        right. by right.
    + (* no comment: the close command fails *)
      destruct before2 as [|a1 before2]; cycle 1.
      { simpl in Htail. injection Htail as _ Htail. by destruct before2. }
      simpl in Htail. injection Htail as <- <-.
      rewrite app_nil_r in Hfail |- *. cbn [negb].
      assert (Hw : World (files w) (tmpfiles w)
                     (trace w ++ (went_through <$> (label_args repo n <$> ls)))
                   = started_in w c (label_args repo n <$> ls)
                       (close_args repo n reason)).
      { unfold started_in.
        by rewrite is_comment_call_close, no_comment_call_in_labels. }
      rewrite Hw. rewrite (run_gh_failed _ _ Hfail), log_started_in. cbn [negb].
      eexists _, _, _. split; [reflexivity|]. split; [reflexivity|].
      right. by right.
Qed.

End CloseFailure.
(** C1. A close or close_wontfix request whose comment is a string and
    whose labels are strings makes the handler run, in order, one label
    command per label (for close_wontfix the label wontfix first), the
    comment command if the comment is not empty once stripped, and the close
    command.  If [subprocess.run] completes each of the commands [before]
    and does not complete the next one, [args], whether it exits with an
    error or times out, then the handler has run exactly [before] and
    [args] and nothing after; it calls [mark_triaged] not at all; it answers
    502 with [{"ok": false, "error": text}], where [text] names the step
    and ends with the message of the failure; and the files are what they
    were. *)
Theorem close_stops_at_first_failure `{Host} (dir repo raw : string) (n : pyint)
    (a c reason : string) (ls labels : list string) (w : world)
    (before : list (list string)) (args : list string)
    (after : list (list string)) :
  valid_request raw = Some (n, a, JStr c, JArr (JStr <$> ls)) ->
  (a = "close" ∧ labels = ls ∧ reason = "completed")
  ∨ (a = "close_wontfix" ∧ labels = "wontfix" :: ls ∧ reason = "not planned") ->
  label_calls repo n labels
  ++ (if truthy (strip c) then [comment_call repo n named_temporary_file] else [])
  ++ [close_call repo n reason]
  = before ++ args :: after ->
  (∀ i a1, before !! i = Some a1 ->
           subprocess_run (started_in w c (take i before) a1) a1 = Completed) ->
  subprocess_run (started_in w c before args) args ≠ Completed ->
  ∃ err text tmp,
    err = reported (subprocess_run (started_in w c before args) args)
    ∧ _handle_action dir repo raw w
      = (Sent 502 (error_payload text),
         World (files w) tmp
           (trace w ++ (went_through <$> before) ++ [GhCall args false err]))
    ∧ ((∃ l, l ∈ labels ∧ args = label_call repo n l
             ∧ text = ("Failed to add label '" ++ l ++ "': " ++ err)%string)
       ∨ (args = comment_call repo n named_temporary_file
          ∧ text = ("Failed to post comment: " ++ err)%string)
       ∨ (args = close_call repo n reason
          ∧ text = ("Failed to close issue: " ++ err)%string)).
Proof.
  intros Hvalid Ha Hsplit Hbefore Hfail.
  rewrite (handle_valid_request dir repo raw n a _ _ w Hvalid).
  assert (dispatch dir repo n a (JStr c) (JArr (JStr <$> ls)) w
          = _do_close dir repo n (JStr c) reason (JArr (JStr <$> labels)) w) as ->.
  { by destruct Ha as [(-> & -> & ->)|(-> & -> & ->)]. }
  exact (do_close_first_failure dir repo n c reason _ labels w before args after
           (label_items_list labels) Hsplit Hbefore Hfail).
Qed.

Lemma close_stops_at_first_failure_witness :
  @valid_request (Reference.host_failing "close") Reference.close_with_comment
  = Some (PyInt 102, "close", JStr "test", JArr [])
  ∧ @subprocess_run (Reference.host_failing "close")
      (@started_in (Reference.host_failing "close") Reference.sample_world "test"
         [comment_call Reference.repo (PyInt 102) "/tmp/tmpq4x1.md"]
         (close_call Reference.repo (PyInt 102) "completed"))
      (close_call Reference.repo (PyInt 102) "completed")
    ≠ Completed
  ∧ ∃ tmp,
      @_handle_action (Reference.host_failing "close") Reference.triage_dir
        Reference.repo Reference.close_with_comment Reference.sample_world
      = (Sent 502 (error_payload "Failed to close issue: not found"),
         World Reference.sample_files tmp
           [GhCall (comment_call Reference.repo (PyInt 102) "/tmp/tmpq4x1.md") true "";
            GhCall (close_call Reference.repo (PyInt 102) "completed") false "not found"]).
Proof.
  assert (Hv : @valid_request (Reference.host_failing "close") Reference.close_with_comment
               = Some (PyInt 102, "close", JStr "test", JArr (JStr <$> [])))
    by (vm_compute; reflexivity).
  assert (Hfail : @subprocess_run (Reference.host_failing "close")
                    (@started_in (Reference.host_failing "close") Reference.sample_world
                       "test"
                       [comment_call Reference.repo (PyInt 102) "/tmp/tmpq4x1.md"]
                       (close_call Reference.repo (PyInt 102) "completed"))
                    (close_call Reference.repo (PyInt 102) "completed")
                  ≠ Completed) by (vm_compute; discriminate).
  split; [exact Hv|]. split; [exact Hfail|].
  destruct (@close_stops_at_first_failure (Reference.host_failing "close")
              Reference.triage_dir Reference.repo Reference.close_with_comment
              (PyInt 102) "close" "test" "completed" [] [] Reference.sample_world
              [comment_call Reference.repo (PyInt 102) "/tmp/tmpq4x1.md"]
              (close_call Reference.repo (PyInt 102) "completed") []
              Hv (or_introl (conj eq_refl (conj eq_refl eq_refl))))
    as (err & text & tmp & Herr & Hrun & Htext).
  - vm_compute. reflexivity.
  - intros [|[|i]] a1; simpl; intros [= <-]. vm_compute. reflexivity.
  - exact Hfail.
  - exists tmp. rewrite Hrun.
    assert (err = "not found") as -> by (rewrite Herr; vm_compute; reflexivity).
    destruct Htext as [(l & Hl & _)|[[Hargs _]|[_ ->]]].
    + by apply elem_of_nil in Hl.
    + discriminate.
    + reflexivity.
Defined.

(** C2, as stated, fails on two requests that go through.  A close with
    labels runs a label command before the close command, where the
    sequence of the specification has none; a close_wontfix whose comment is
    a single space runs no comment command, where the sequence of the
    specification has one, the text being non-empty. *)
Lemma close_sequence_counterexample :
  (@valid_request Reference.host Reference.close_with_labels
   = Some (PyInt 102, "close", JStr "", JArr [JStr "bug"])
   ∧ (∃ payload,
        (@_handle_action Reference.host Reference.triage_dir Reference.repo
           Reference.close_with_labels Reference.sample_world).1 = Sent 200 payload)
   ∧ commands_run
       (trace (@_handle_action Reference.host Reference.triage_dir Reference.repo
                 Reference.close_with_labels Reference.sample_world).2)
     = [["gh"; "issue"; "edit"; "102"; "--repo"; "owner/repo"; "--add-label"; "bug"];
        ["gh"; "issue"; "close"; "102"; "--repo"; "owner/repo"; "--reason"; "completed"]]
   ∧ Spec.close_calls "owner/repo" "/tmp/tmpq4x1.md" "close" "102" "" ["bug"]
     = [["gh"; "issue"; "close"; "102"; "--repo"; "owner/repo"; "--reason"; "completed"]])
  ∧ (@valid_request Reference.host Reference.wontfix_blank_comment
     = Some (PyInt 102, "close_wontfix", JStr " ", JArr [])
     ∧ (∃ payload,
          (@_handle_action Reference.host Reference.triage_dir Reference.repo
             Reference.wontfix_blank_comment Reference.sample_world).1 = Sent 200 payload)
     ∧ commands_run
         (trace (@_handle_action Reference.host Reference.triage_dir Reference.repo
                   Reference.wontfix_blank_comment Reference.sample_world).2)
       = [["gh"; "issue"; "edit"; "102"; "--repo"; "owner/repo"; "--add-label"; "wontfix"];
          ["gh"; "issue"; "close"; "102"; "--repo"; "owner/repo"; "--reason"; "not planned"]]
     ∧ Spec.close_calls "owner/repo" "/tmp/tmpq4x1.md" "close_wontfix" "102" " " []
       = [["gh"; "issue"; "edit"; "102"; "--repo"; "owner/repo"; "--add-label"; "wontfix"];
          ["gh"; "issue"; "comment"; "102"; "--repo"; "owner/repo";
           "--body-file"; "/tmp/tmpq4x1.md"];
          ["gh"; "issue"; "close"; "102"; "--repo"; "owner/repo"; "--reason"; "not planned"]]).
Proof.
  repeat split; try (eexists; vm_compute; reflexivity); vm_compute; reflexivity.
Qed.

(** C2, amended. A close or close_wontfix request is answered 200 only
    when its comment is a string.  On a close_wontfix request that is
    answered 200 the labels of the request are a list of strings, and the
    handler ran, in this order and nothing else: one label command for
    [wontfix], one for each requested label in request order, one comment
    command if the comment is non-empty once stripped of whitespace, one
    close command with reason "not planned"; [subprocess.run] completed
    each of them; then the handler called [mark_triaged] once.  On a close
    request that is answered 200 it ran one label command for each item the
    loop goes over, which for a list of labels are the labels in request
    order, the comment command under the same condition, the close command
    with reason "completed", all of them completed, then called
    [mark_triaged] once. *)
Theorem close_command_order `{Host} (dir repo raw : string) (n : pyint)
    (a : string) (comment labels : json) (w w' : world) (payload : json) :
  valid_request raw = Some (n, a, comment, labels) ->
  _handle_action dir repo raw w = (Sent 200 payload, w') ->
  (a = "close_wontfix" ->
     ∃ c ls, comment = JStr c
     ∧ labels = JArr (JStr <$> ls)
     ∧ trace w' = trace w
         ++ (went_through <$>
               label_calls repo n ("wontfix" :: ls)
               ++ (if truthy (strip c)
                   then [comment_call repo n named_temporary_file] else [])
               ++ [close_call repo n "not planned"])
         ++ [MarkTriaged n "closed" (truthy (strip c)) (JStr "")]
     ∧ (∀ i a1,
          (label_calls repo n ("wontfix" :: ls)
           ++ (if truthy (strip c)
               then [comment_call repo n named_temporary_file] else [])
           ++ [close_call repo n "not planned"]) !! i = Some a1 ->
          subprocess_run
            (started_in w c
               (take i (label_calls repo n ("wontfix" :: ls)
                        ++ (if truthy (strip c)
                            then [comment_call repo n named_temporary_file] else [])
                        ++ [close_call repo n "not planned"])) a1) a1
          = Completed))
  ∧ (a = "close" ->
       ∃ c ls, comment = JStr c
       ∧ label_items labels = Some (Ok (JStr <$> ls))
       ∧ (∀ items, labels = JArr items -> items = JStr <$> ls)
       ∧ trace w' = trace w
           ++ (went_through <$>
                 label_calls repo n ls
                 ++ (if truthy (strip c)
                     then [comment_call repo n named_temporary_file] else [])
                 ++ [close_call repo n "completed"])
           ++ [MarkTriaged n "closed" (truthy (strip c)) (JStr "")]
       ∧ (∀ i a1,
            (label_calls repo n ls
             ++ (if truthy (strip c)
                 then [comment_call repo n named_temporary_file] else [])
             ++ [close_call repo n "completed"]) !! i = Some a1 ->
            subprocess_run
              (started_in w c
                 (take i (label_calls repo n ls
                          ++ (if truthy (strip c)
                              then [comment_call repo n named_temporary_file] else [])
                          ++ [close_call repo n "completed"])) a1) a1
            = Completed)).
Proof.
  intros Hvalid Hrun.
  rewrite (handle_valid_request dir repo raw n a comment labels w Hvalid) in Hrun.
  assert (Hgo : ∀ reason labels',
             _do_close dir repo n comment reason labels' w = (Sent 200 payload, w') ->
             ∃ c ls, comment = JStr c
               ∧ label_items labels' = Some (Ok (JStr <$> ls))
               ∧ trace w' = trace w
                   ++ (went_through <$>
                         label_calls repo n ls
                         ++ (if truthy (strip c)
                             then [comment_call repo n named_temporary_file] else [])
                         ++ [close_call repo n reason])
                   ++ [MarkTriaged n "closed" (truthy (strip c)) (JStr "")]
               ∧ (∀ i a1,
                    (label_calls repo n ls
                     ++ (if truthy (strip c)
                         then [comment_call repo n named_temporary_file] else [])
                     ++ [close_call repo n reason]) !! i = Some a1 ->
                    subprocess_run
                      (started_in w c
                         (take i (label_calls repo n ls
                                  ++ (if truthy (strip c)
                                      then [comment_call repo n named_temporary_file]
                                      else [])
                                  ++ [close_call repo n reason])) a1) a1
                    = Completed)).
  { intros reason labels' Hclose.
    destruct (do_close_cases dir repo n comment reason labels' w)
      as (out0 & w0 & evs & Hrun0 & Htr & _ & Hcases).
    rewrite Hclose in Hrun0. injection Hrun0 as <- <-.
    destruct Hcases as [(c & ls & -> & Hitems & -> & _)
                       |[(pre & args0 & err0 & text & _ & Hout & _)
                        |(pre & _ & Hout & _)]].
    - exists c, ls. split; [done|]. split; [done|]. split; [done|].
      destruct (first_failure_or_all w c
                  (label_calls repo n ls
                   ++ (if truthy (strip c)
                       then [comment_call repo n named_temporary_file] else [])
                   ++ [close_call repo n reason]))
        as [Hall|(before & args & after & Hsplit & Hbefore & Hfail)]; [exact Hall|].
      destruct (do_close_first_failure dir repo n c reason labels' ls w
                  before args after Hitems Hsplit Hbefore Hfail)
        as (err & text & tmp & _ & Hfailed & _).
      rewrite Hclose in Hfailed. discriminate.
    - discriminate.
    - by destruct Hout as [|[|]]. }
  unfold dispatch in Hrun. split; intros ->; simpl in Hrun.
  - destruct labels as [| | | | |items|]; try discriminate.
    apply Hgo in Hrun as (c & ls & -> & Hitems & Htr & Hdone).
    simpl in Hitems. injection Hitems as Hitems.
    destruct ls as [|l ls]; [discriminate|]. simpl in Hitems.
    injection Hitems as <- ->.
    by exists c, ls.
  - apply Hgo in Hrun as (c & ls & -> & Hitems & Htr & Hdone).
    exists c, ls. split; [done|]. split; [done|]. split; [|done].
    intros items ->. unfold label_items in Hitems.
    destruct items as [|x items]; simpl in Hitems.
    + injection Hitems as Hitems. by destruct ls.
    + by injection Hitems as Hitems.
Qed.

Lemma close_command_order_witness :
  @valid_request Reference.host Reference.wontfix_with_comment
  = Some (PyInt 102, "close_wontfix", JStr "Stale issue.", JArr [JStr "stale"])
  ∧ (∃ payload,
       (@_handle_action Reference.host Reference.triage_dir Reference.repo
          Reference.wontfix_with_comment Reference.sample_world).1 = Sent 200 payload)
  ∧ trace (@_handle_action Reference.host Reference.triage_dir Reference.repo
             Reference.wontfix_with_comment Reference.sample_world).2
    = [GhCall ["gh"; "issue"; "edit"; "102"; "--repo"; "owner/repo";
               "--add-label"; "wontfix"] true "";
       GhCall ["gh"; "issue"; "edit"; "102"; "--repo"; "owner/repo";
               "--add-label"; "stale"] true "";
       GhCall ["gh"; "issue"; "comment"; "102"; "--repo"; "owner/repo";
               "--body-file"; "/tmp/tmpq4x1.md"] true "";
       GhCall ["gh"; "issue"; "close"; "102"; "--repo"; "owner/repo";
               "--reason"; "not planned"] true "";
       MarkTriaged (PyInt 102) "closed" true (JStr "")].
Proof.
  assert (Hv : @valid_request Reference.host Reference.wontfix_with_comment
               = Some (PyInt 102, "close_wontfix", JStr "Stale issue.",
                       JArr [JStr "stale"]))
    by (vm_compute; reflexivity).
  assert (Hr : ∃ payload,
             @_handle_action Reference.host Reference.triage_dir Reference.repo
               Reference.wontfix_with_comment Reference.sample_world
             = (Sent 200 payload,
                (@_handle_action Reference.host Reference.triage_dir Reference.repo
                   Reference.wontfix_with_comment Reference.sample_world).2))
    by (eexists; vm_compute; reflexivity).
  destruct Hr as (payload & Hr).
  split; [exact Hv|]. split; [exists payload; by rewrite Hr|].
  destruct (@close_command_order Reference.host Reference.triage_dir Reference.repo
              _ _ _ _ _ _ _ payload Hv Hr) as [Hwontfix _].
  destruct (Hwontfix eq_refl) as (c & ls & [= <-] & [= Hls] & Htrace & _).
  destruct ls as [|l [|l' ls]];
    [discriminate Hls| |discriminate Hls].
  injection Hls as <-.
  rewrite Htrace. vm_compute. reflexivity.
Defined.




(** What the handler does on a skip request that passed the checks, on a
    state document that [mark_triaged] can update. *)
Lemma skip_request_run `{Host} (dir repo raw : string) (n : pyint)
    (comment labels : json) (w : world) (state triaged : gmap string json) :
  valid_request raw = Some (n, "skip", comment, labels) ->
  load_json (files w) (state_json dir) = Ok (JObj state) ->
  triaged_dict state = Some triaged ->
  _handle_action dir repo raw w
  = (Sent 200 (ok_payload "skipped" (new_entry "skipped" false comment)),
     World (save_json (files w) (state_json dir)
              (JObj (<["triaged" :=
                         JObj (<[py_str n := JObj (new_entry "skipped" false comment)]>
                                 triaged)]>
                       state)))
       (tmpfiles w) (trace w ++ [MarkTriaged n "skipped" false comment])).
Proof.
  intros Hvalid Hload Hdict.
  rewrite (handle_valid_request dir repo raw n "skip" _ _ w Hvalid).
  change (dispatch dir repo n "skip" comment labels w)
    with (_do_skip dir n comment w).
  unfold _do_skip, recorded, record_triage, log. cbn [files tmpfiles trace].
  by rewrite (mark_triaged_ok _ _ _ _ _ _ _ _ Hload Hdict).
Qed.

(** C8, as stated, fails on a triage directory whose [state.json] cannot
    be read: the skip request passes the checks, [mark_triaged] is called
    and raises, nothing is written and no answer is sent. *)
Lemma skip_counterexample :
  @valid_request Reference.host Reference.skip_with_note
  = Some (PyInt 102, "skip", JStr "Not relevant", JArr [])
  ∧ @_handle_action Reference.host Reference.triage_dir Reference.repo
      Reference.skip_with_note Reference.broken_world
    = (Crashed JSONDecodeError,
       World (files Reference.broken_world) ∅
         [MarkTriaged (PyInt 102) "skipped" false (JStr "Not relevant")]).
Proof.
  split; vm_compute; reflexivity.
Qed.

(** C8, amended. A skip request that passed the checks of the handler,
    whatever its [comment] and [labels] are, makes the handler run no
    command and call [mark_triaged] exactly once, with action "skipped" and
    the request's [comment] as the note.  On a state document that
    [mark_triaged] can update ([state.json] missing, or an object whose
    [triaged] is missing or an object) the answer is 200 with
    [{"ok": true, "action": "skipped", "entry": entry}]; the entry is the
    one [mark_triaged] returns, with the note when it is true in Python's
    sense, and it is written under [str(number)].  On any other state
    document [mark_triaged] raises: nothing is written and no answer is
    sent. *)
Theorem skip_request `{Host} (dir repo raw : string) (n : pyint)
    (comment labels : json) (w : world) :
  valid_request raw = Some (n, "skip", comment, labels) ->
  ∃ out fs',
    _handle_action dir repo raw w
    = (out, World fs' (tmpfiles w) (trace w ++ [MarkTriaged n "skipped" false comment]))
    ∧ (∀ state triaged,
         load_json (files w) (state_json dir) = Ok (JObj state) ->
         triaged_dict state = Some triaged ->
         ∃ entry,
           mark_triaged (files w) dir n "skipped" false comment = Ok (fs', entry)
           ∧ out = Sent 200 (ok_payload "skipped" entry)
           ∧ entry !! "action" = Some (JStr "skipped")
           ∧ entry !! "comment_posted" = None
           ∧ entry !! "note" = (if json_truthy comment then Some comment else None)
           ∧ (∀ s, comment = JStr s ->
                   entry !! "note" = (if decide (s = "") then None else Some (JStr s)))
           ∧ fs' !! state_json dir
             = Some (json_dumps
                       (JObj (<["triaged" := JObj (<[py_str n := JObj entry]> triaged)]>
                                state))))
    ∧ (¬ (∃ state triaged,
            load_json (files w) (state_json dir) = Ok (JObj state)
            ∧ triaged_dict state = Some triaged) ->
       ∃ e, mark_triaged (files w) dir n "skipped" false comment = Raise e
            ∧ out = Crashed e ∧ fs' = files w).
Proof.
  intros Hvalid.
  rewrite (handle_valid_request dir repo raw n "skip" _ _ w Hvalid).
  change (dispatch dir repo n "skip" comment labels w)
    with (_do_skip dir n comment w).
  unfold _do_skip, recorded, record_triage, log. cbn [files tmpfiles trace].
  destruct (mark_triaged (files w) dir n "skipped" false comment)
    as [[fs' entry]|e] eqn:Hm.
  - eexists _, _. split; [reflexivity|]. split.
    + intros state triaged Hload Hdict.
      rewrite (mark_triaged_ok _ _ _ _ _ _ _ _ Hload Hdict) in Hm.
      injection Hm as <- <-.
      eexists. split; [reflexivity|]. split; [done|].
      split; [apply new_entry_action|].
      split; [apply (new_entry_comment_posted "skipped" false)|].
      split; [apply new_entry_note|].
      split; [intros s ->; apply new_entry_note_str|].
      apply save_json_lookup.
    + intros Hbad.
      destruct (mark_triaged_raises (files w) dir n "skipped" false comment Hbad)
        as (e & He & _).
      congruence.
  - eexists _, _. split; [reflexivity|]. split.
    + intros state triaged Hload Hdict.
      rewrite (mark_triaged_ok _ _ _ _ _ _ _ _ Hload Hdict) in Hm. discriminate.
    + intros _. by exists e.
Qed.

Lemma skip_request_witness :
  @valid_request Reference.host Reference.skip_null_comment
  = Some (PyInt 102, "skip", JNull, JArr [])
  ∧ @load_json Reference.host (files Reference.sample_world)
      (state_json Reference.triage_dir) = Ok (JObj Reference.sample_state)
  ∧ triaged_dict Reference.sample_state = Some Reference.sample_triaged
  ∧ ∃ fs' entry,
      @_handle_action Reference.host Reference.triage_dir Reference.repo
        Reference.skip_null_comment Reference.sample_world
      = (Sent 200 (ok_payload "skipped" entry),
         World fs' ∅ [MarkTriaged (PyInt 102) "skipped" false JNull])
      ∧ entry !! "note" = None.
Proof.
  assert (Hv : @valid_request Reference.host Reference.skip_null_comment
               = Some (PyInt 102, "skip", JNull, JArr []))
    by (vm_compute; reflexivity).
  assert (Hload : @load_json Reference.host (files Reference.sample_world)
                    (state_json Reference.triage_dir)
                  = Ok (JObj Reference.sample_state)) by (vm_compute; reflexivity).
  assert (Hdict : triaged_dict Reference.sample_state = Some Reference.sample_triaged)
    by (vm_compute; reflexivity).
  split; [exact Hv|]. split; [exact Hload|]. split; [exact Hdict|].
  destruct (@skip_request Reference.host Reference.triage_dir Reference.repo
              _ _ _ _ Reference.sample_world Hv)
    as (out & fs' & Hrun & Hok & _).
  destruct (Hok _ _ Hload Hdict) as (entry & _ & -> & _ & _ & Hnote & _).
  exists fs', entry. split; [exact Hrun|exact Hnote].
Defined.

(** C10. A body whose [number] is the JSON value [true] passes the number
    check: [true] is an [int] for [isinstance] and compares greater than 0.
    With action skip, whatever the rest of the body, on a state document
    that [mark_triaged] can update, the answer is 200, not 400, and the
    state written binds the key "True" of [triaged] to the new entry. *)
Theorem boolean_number_accepted `{Host} (dir repo raw : string)
    (body : gmap string json) (w : world) (state triaged : gmap string json) :
  json_loads raw = Some (JObj body) ->
  body !! "number" = Some (JBool true) ->
  body !! "action" = Some (JStr "skip") ->
  load_json (files w) (state_json dir) = Ok (JObj state) ->
  triaged_dict state = Some triaged ->
  isinstance_int (JBool true) = Some (PyBool true)
  ∧ (int_value (PyBool true) <=? 0)%Z = false
  ∧ ∃ fs' entry triaged',
      _handle_action dir repo raw w
      = (Sent 200 (ok_payload "skipped" entry),
         World fs' (tmpfiles w)
           (trace w ++ [MarkTriaged (PyBool true) "skipped" false
                          (body_get body "comment" (JStr ""))]))
      ∧ fs' !! state_json dir
        = Some (json_dumps (JObj (<["triaged" := JObj triaged']> state)))
      ∧ triaged' !! "True" = Some (JObj entry)
      ∧ entry !! "action" = Some (JStr "skipped").
Proof.
  intros Hraw Hnum Hact Hload Hdict.
  split; [done|]. split; [done|].
  assert (Hvalid : valid_request raw
                   = Some (PyBool true, "skip", body_get body "comment" (JStr ""),
                           body_get body "labels" (JArr []))).
  { unfold valid_request. rewrite Hraw. unfold body_get at 1 2.
    by rewrite Hnum, Hact. }
  eexists _, _, _.
  split; [exact (skip_request_run dir repo raw (PyBool true) _ _ w state triaged
                   Hvalid Hload Hdict)|].
  split; [apply save_json_lookup|].
  split; [apply (lookup_insert_eq _ "True")|apply new_entry_action].
Qed.

Lemma boolean_number_accepted_witness :
  @json_loads Reference.host Reference.skip_number_true
  = Some (JObj (<["comment" := JStr ""]>
                  (<["action" := JStr "skip"]> (<["number" := JBool true]> ∅))))
  ∧ @load_json Reference.host (files Reference.sample_world)
      (state_json Reference.triage_dir) = Ok (JObj Reference.sample_state)
  ∧ triaged_dict Reference.sample_state = Some Reference.sample_triaged
  ∧ ∃ fs' entry triaged',
      @_handle_action Reference.host Reference.triage_dir Reference.repo
        Reference.skip_number_true Reference.sample_world
      = (Sent 200 (ok_payload "skipped" entry),
         World fs' ∅ [MarkTriaged (PyBool true) "skipped" false (JStr "")])
      ∧ fs' !! state_json Reference.triage_dir
        = Some (@json_dumps Reference.host
                  (JObj (<["triaged" := JObj triaged']> Reference.sample_state)))
      ∧ triaged' !! "True" = Some (JObj entry).
Proof.
  assert (Hraw : @json_loads Reference.host Reference.skip_number_true
                 = Some (JObj (<["comment" := JStr ""]>
                                 (<["action" := JStr "skip"]>
                                    (<["number" := JBool true]> ∅)))))
    by (vm_compute; reflexivity).
  assert (Hload : @load_json Reference.host (files Reference.sample_world)
                    (state_json Reference.triage_dir)
                  = Ok (JObj Reference.sample_state)) by (vm_compute; reflexivity).
  assert (Hdict : triaged_dict Reference.sample_state = Some Reference.sample_triaged)
    by (vm_compute; reflexivity).
  split; [exact Hraw|]. split; [exact Hload|]. split; [exact Hdict|].
  assert (Hnum : (<["comment" := JStr ""]>
                    (<["action" := JStr "skip"]> (<["number" := JBool true]> ∅))
                  : gmap string json) !! "number" = Some (JBool true))
    by (vm_compute; reflexivity).
  assert (Hact : (<["comment" := JStr ""]>
                    (<["action" := JStr "skip"]> (<["number" := JBool true]> ∅))
                  : gmap string json) !! "action" = Some (JStr "skip"))
    by (vm_compute; reflexivity).
  destruct (@boolean_number_accepted Reference.host Reference.triage_dir
              Reference.repo Reference.skip_number_true _
              Reference.sample_world Reference.sample_state Reference.sample_triaged
              Hraw Hnum Hact Hload Hdict)
    as (_ & _ & fs' & entry & triaged' & Hrun & Hfile & Hkey & _).
  exists fs', entry, triaged'. split; [exact Hrun|]. split; [exact Hfile|exact Hkey].
Defined.
(* ===================================================================== *)
(** ** Facts about the dashboard query *)
(* ===================================================================== *)

Import Templates.

Section SortFacts.
Context {A K : Type} `{EqDecision K} (key : A -> K) (leb : K -> K -> bool).
Hypothesis leb_total : ∀ a b, leb a b = true ∨ leb b a = true.
Hypothesis leb_trans : ∀ a b c, leb a b = true -> leb b c = true -> leb a c = true.

Lemma leb_refl (a : K) : leb a a = true.
Proof. by destruct (leb_total a a). Qed.

Lemma insert_by_perm (x : A) (l : list A) : insert_by key leb x l ≡ₚ x :: l.
Proof.
  induction l as [|y l IH]; simpl; [done|].
  destruct (leb (key x) (key y)); [done|].
  rewrite IH. apply Permutation_swap.
Qed.

Lemma sort_by_perm (l : list A) : sort_by key leb l ≡ₚ l.
Proof.
  induction l as [|x l IH]; simpl; [done|].
  rewrite insert_by_perm. by rewrite IH.
Qed.

Lemma insert_by_sorted (R : A -> A -> Prop) (x : A) (l : list A) :
  (∀ y, y ∈ l -> leb (key x) (key y) = true -> R x y) ->
  (∀ y, y ∈ l -> leb (key x) (key y) = false -> R y x) ->
  (∀ y z, z ∈ l -> R x y -> R y z -> R x z) ->
  StronglySorted R l -> StronglySorted R (insert_by key leb x l).
Proof.
  intros Hle Hgt Htrans Hsorted.
  induction Hsorted as [|y l Hsorted IH Hall]; simpl.
  - repeat constructor.
  - destruct (leb (key x) (key y)) eqn:Hxy.
    + assert (R x y) as Rxy by (apply Hle; [by left|done]).
      constructor; [by constructor|].
      constructor; [done|].
      rewrite Forall_forall in Hall. apply Forall_forall. intros z Hz.
      apply (Htrans y z); [by right|done|by apply Hall].
    + constructor.
      * apply IH.
        -- intros z Hz. apply Hle. by right.
        -- intros z Hz. apply Hgt. by right.
        -- intros z z' Hz'. apply Htrans. by right.
      * rewrite insert_by_perm. constructor; [|done].
        apply Hgt; [by left|done].
Qed.

Lemma sort_by_sorted (l : list A) :
  StronglySorted (fun a b => leb (key a) (key b) = true) (sort_by key leb l).
Proof.
  induction l as [|x l IH]; simpl; [constructor|].
  apply insert_by_sorted; try done.
  - intros y _ Hxy. by destruct (leb_total (key x) (key y)) as [Hle|Hle]; [congruence|].
  - intros y z _. apply leb_trans.
Qed.

Lemma filter_insert_by (k : K) (x : A) (l : list A) :
  filter (fun a => key a = k) (insert_by key leb x l)
  = filter (fun a => key a = k) (x :: l).
Proof.
  induction l as [|y l IH]; simpl; [done|].
  destruct (leb (key x) (key y)) eqn:Hxy; [done|].
  rewrite filter_cons, IH, !filter_cons.
  destruct (decide (key y = k)) as [Hy|Hy], (decide (key x = k)) as [Hx|Hx]; try done.
  rewrite Hx, Hy, leb_refl in Hxy. discriminate.
Qed.

Lemma filter_sort_by (k : K) (l : list A) :
  filter (fun a => key a = k) (sort_by key leb l) = filter (fun a => key a = k) l.
Proof.
  induction l as [|x l IH]; simpl; [done|].
  rewrite filter_insert_by, !filter_cons. by rewrite IH.
Qed.

Lemma sort_by_minor (minor : A -> Z) (l : list A) :
  StronglySorted (fun a b => (minor a <= minor b)%Z) l ->
  StronglySorted (fun a b => leb (key a) (key b) = true
                             ∧ (leb (key b) (key a) = true -> (minor a <= minor b)%Z))
    (sort_by key leb l).
Proof.
  induction 1 as [|x l Hsorted IH Hall]; simpl; [constructor|].
  assert (Forall (fun b => (minor x <= minor b)%Z) (sort_by key leb l)) as Hall'
    by (by rewrite sort_by_perm).
  rewrite Forall_forall in Hall'.
  apply insert_by_sorted; try done.
  - intros y Hy Hxy. split; [done|]. intros _. by apply Hall'.
  - intros y Hy Hxy. split.
    + by destruct (leb_total (key x) (key y)) as [Hle|Hle]; [congruence|].
    + intros Hle. congruence.
  - intros y z Hz [Hxy _] [Hyz _]. split; [by eapply leb_trans|].
    intros _. by apply Hall'.
Qed.

Lemma sort_by_stably_sorted (minor : A -> Z) (l : list A) :
  stably_sorted key leb minor l (sort_by key leb l).
Proof.
  split; [apply sort_by_sorted|].
  split; [intros k; apply filter_sort_by|apply sort_by_minor].
Qed.

End SortFacts.

(** Sorting by two keys that agree on every element gives the same list. *)
Lemma sort_by_ext {A K : Type} (key key' : A -> K) (leb : K -> K -> bool)
    (l : list A) :
  (∀ a, key a = key' a) -> sort_by key leb l = sort_by key' leb l.
Proof.
  intros Hkey. induction l as [|x l IH]; simpl; [done|]. rewrite IH.
  generalize (sort_by key' leb l). intros l'.
  induction l' as [|y l' IH']; simpl; [done|]. by rewrite !Hkey, IH'.
Qed.

(** The lookup map binds a number to the last finding that has it. *)
Lemma index_findings_from (findings : list finding) (m : gmap Z finding) (n : Z) :
  foldl (fun m f => <[f_number f := f]> m) m findings !! n
  = match Spec.finding_of findings n with
    | Some f => Some f
    | None => m !! n
    end.
Proof.
  unfold Spec.finding_of. revert m.
  induction findings as [|x l IH]; intros m; [done|].
  simpl. rewrite IH, filter_cons.
  destruct (decide (f_number x = n)) as [<-|Hne].
  - rewrite last_cons. destruct (last _); [done|]. apply lookup_insert_eq.
  - destruct (last _); [done|]. by apply lookup_insert_ne.
Qed.

Lemma index_findings_last (findings : list finding) (n : Z) :
  index_findings findings !! n = Spec.finding_of findings n.
Proof.
  unfold index_findings. rewrite index_findings_from.
  by destruct (Spec.finding_of findings n).
Qed.

(** The key of the confidence sort is the rank of the specification. *)
Lemma confidence_key_rank (findings : list finding) (i : issue) :
  confidence_key (index_findings findings) i
  = Spec.confidence_rank (Spec.finding_of findings (number i) ≫= confidence).
Proof.
  unfold confidence_key, finding_get, Spec.confidence_rank.
  rewrite index_findings_last.
  by destruct (Spec.finding_of findings (number i) ≫= confidence).
Qed.

Lemma ascii_compare_trans_lt (a b c : ascii) :
  Ascii.compare a b = Lt -> Ascii.compare b c = Lt -> Ascii.compare a c = Lt.
Proof.
  unfold Ascii.compare. rewrite !N.compare_lt_iff. lia.
Qed.

(** [<=] on strings, code point by code point, is transitive. *)
Lemma string_leb_trans (s1 s2 s3 : string) :
  String.leb s1 s2 = true -> String.leb s2 s3 = true -> String.leb s1 s3 = true.
Proof.
  unfold String.leb. revert s2 s3.
  induction s1 as [|a s1 IH]; intros [|b s2] [|c s3]; simpl; try done.
  destruct (Ascii.compare a b) eqn:Hab; [| |done].
  - apply Ascii.compare_eq_iff in Hab as ->.
    destruct (Ascii.compare b c) eqn:Hbc; [|done|done]. apply IH.
  - intros _. destruct (Ascii.compare b c) eqn:Hbc; [| |done].
    + apply Ascii.compare_eq_iff in Hbc as <-. by rewrite Hab.
    + by rewrite (ascii_compare_trans_lt a b c).
Qed.

Lemma nat_leb_total (a b : nat) : Nat.leb a b = true ∨ Nat.leb b a = true.
Proof. rewrite !Nat.leb_le. lia. Qed.

Lemma nat_leb_trans (a b c : nat) :
  Nat.leb a b = true -> Nat.leb b c = true -> Nat.leb a c = true.
Proof. rewrite !Nat.leb_le. lia. Qed.

Lemma Z_leb_total (a b : Z) : Z.leb a b = true ∨ Z.leb b a = true.
Proof. rewrite !Z.leb_le. lia. Qed.

Lemma Z_leb_trans (a b c : Z) :
  Z.leb a b = true -> Z.leb b c = true -> Z.leb a c = true.
Proof. rewrite !Z.leb_le. lia. Qed.

(** C7, as stated, fails: under the confidence sort two issues of equal
    confidence stay in the order of the input list, here 102 before 101. *)
Lemma confidence_tie_counterexample :
  confidence_key (index_findings sample_findings) issue_102
  = confidence_key (index_findings sample_findings) issue_101
  ∧ number <$> dashboard_issues [issue_102; issue_101; issue_103] sample_findings ∅
                 {[ "sort" := "confidence" ]}
    = [102; 101; 103].
Proof. split; vm_compute; reflexivity. Qed.

(** C7, amended. The rows are the filtered issues, reordered by a stable
    sort.  For [sort=age] the key is the creation timestamp, an issue
    without one counting as the empty text, in ascending order of the text.
    For [sort=confidence] the key is the rank of the confidence of the
    issue's finding (the last one with its number), HIGH 0, MEDIUM 1, LOW 2,
    PENDING 3, an issue without a confidence (and any other value) ranking
    3, which is last.  Otherwise
    the key is the issue number, ascending.  Issues with equal keys keep the
    order they have in the input list, so the tiebreak is issue number
    ascending exactly when the input list comes in that order. *)
Theorem dashboard_sort_order (issues : list issue) (findings : list finding)
    (state : gmap string json) (filters : gmap string string) :
  dashboard_issues issues findings state filters
    ≡ₚ apply_filters issues (index_findings findings) (triaged_of state) filters
  ∧ (if String.eqb (get_or filters "sort" "number") "age" then
       stably_sorted (fun i => default "" (created_at i)) String.leb number
         (apply_filters issues (index_findings findings) (triaged_of state) filters)
         (dashboard_issues issues findings state filters)
     else if String.eqb (get_or filters "sort" "number") "confidence" then
       stably_sorted
         (fun i => Spec.confidence_rank
                     (Spec.finding_of findings (number i) ≫= confidence))
         Nat.leb number
         (apply_filters issues (index_findings findings) (triaged_of state) filters)
         (dashboard_issues issues findings state filters)
     else
       stably_sorted number Z.leb number
         (apply_filters issues (index_findings findings) (triaged_of state) filters)
         (dashboard_issues issues findings state filters)).
Proof.
  split.
  - unfold dashboard_issues, apply_sort.
    repeat (match goal with |- context [String.eqb ?a ?b] => destruct (String.eqb a b) end);
      apply sort_by_perm.
  - unfold dashboard_issues, apply_sort.
    destruct (String.eqb (get_or filters "sort" "number") "age").
    + apply (sort_by_stably_sorted (fun i => default "" (created_at i)) String.leb);
        [apply String.leb_total|apply string_leb_trans].
    + destruct (String.eqb (get_or filters "sort" "number") "confidence").
      * rewrite (sort_by_ext (confidence_key (index_findings findings))
                   (fun i => Spec.confidence_rank
                               (Spec.finding_of findings (number i) ≫= confidence)))
          by apply confidence_key_rank.
        apply sort_by_stably_sorted; [apply nat_leb_total|apply nat_leb_trans].
      * apply sort_by_stably_sorted; [apply Z_leb_total|apply Z_leb_trans].
Qed.

(** Every issue that passes the filters has a finding whose verdict is the
    verdict filter and whose confidence is the confidence filter, when these
    are set: an issue without a finding passes neither. *)
Lemma apply_filters_exact (issues : list issue) (findings_by_num : gmap Z finding)
    (triaged : gmap string json) (filters : gmap string string) (i : issue) :
  i ∈ apply_filters issues findings_by_num triaged filters ->
  i ∈ issues
  ∧ (get_or filters "verdict" "" ≠ "" ->
     finding_get verdict findings_by_num i = Some (get_or filters "verdict" ""))
  ∧ (get_or filters "confidence" "" ≠ "" ->
     finding_get confidence findings_by_num i = Some (get_or filters "confidence" "")).
Proof.
  unfold apply_filters. intros Hin.
  assert (Hshow : ∀ l : list issue,
             i ∈ (if String.eqb (get_or filters "show" "all") "pending" then
                    filter (fun i => triaged !! py_str (PyInt (number i)) = None) l
                  else if String.eqb (get_or filters "show" "all") "triaged" then
                    filter (fun i => is_Some (triaged !! py_str (PyInt (number i)))) l
                  else l) -> i ∈ l).
  { intros l. repeat case_match; rewrite ?list_elem_of_filter; tauto. }
  apply Hshow in Hin.
  assert (Hq : i ∈ (if truthy (get_or filters "confidence" "") then
                      filter (fun i => finding_get confidence findings_by_num i
                                       = Some (get_or filters "confidence" ""))
                        (if truthy (get_or filters "verdict" "") then
                           filter (fun i => finding_get verdict findings_by_num i
                                            = Some (get_or filters "verdict" "")) issues
                         else issues)
                    else
                      (if truthy (get_or filters "verdict" "") then
                         filter (fun i => finding_get verdict findings_by_num i
                                          = Some (get_or filters "verdict" "")) issues
                       else issues))).
  { destruct (truthy (get_or filters "q" "")); [|done].
    apply list_elem_of_filter in Hin. tauto. }
  clear Hin Hshow.
  destruct (truthy (get_or filters "confidence" "")) eqn:Hc,
           (truthy (get_or filters "verdict" "")) eqn:Hv;
    rewrite ?list_elem_of_filter in Hq;
    try apply truthy_false in Hc; try apply truthy_false in Hv;
    intuition congruence.
Qed.

(** C6 at an issue without a finding: with [verdict=pending] (and with
    [confidence=PENDING]) the filter drops issue 103, while the same issue's
    row shows the verdict "pending" and the confidence "PENDING". *)
Theorem pending_filter_drops_unanalysed :
  number <$> dashboard_issues [issue_101; issue_102; issue_103] sample_findings ∅
               {[ "verdict" := "pending" ]} = []
  ∧ number <$> dashboard_issues [issue_101; issue_102; issue_103] sample_findings ∅
                 {[ "confidence" := "PENDING" ]} = []
  ∧ render_dashboard [issue_101; issue_102; issue_103] sample_findings ∅ ∅
    = Ok [Row issue_101 "likely_resolved" "HIGH" None;
          Row issue_102 "still_open" "HIGH" None;
          Row issue_103 "pending" "PENDING" None].
Proof. repeat split; vm_compute; reflexivity. Qed.

(* ===================================================================== *)
(** ** More facts about the triage state *)
(* ===================================================================== *)


(** X2. Two records in a row, the codec reading the first written state
    back: the second one goes through too, and the state it writes binds
    the second key to the second entry, keeps the first entry when the keys
    differ, and leaves every other key of [triaged] as it was. *)
Theorem mark_triaged_twice `{Host} (fs : store) (dir : string)
    (state triaged : gmap string json) (n1 n2 : pyint) (a1 a2 : string)
    (cp1 cp2 : bool) (note1 note2 : json) :
  load_json fs (state_json dir) = Ok (JObj state) ->
  triaged_dict state = Some triaged ->
  json_loads
    (json_dumps
       (JObj (<["triaged" := JObj (<[py_str n1 := JObj (new_entry a1 cp1 note1)]> triaged)]>
                state)))
  = Some (JObj (<["triaged" := JObj (<[py_str n1 := JObj (new_entry a1 cp1 note1)]> triaged)]>
                  state)) ->
  ∃ (fs1 : store) (e1 : gmap string json) (fs2 : store)
    (e2 triaged2 : gmap string json),
    mark_triaged fs dir n1 a1 cp1 note1 = Ok (fs1, e1)
    ∧ mark_triaged fs1 dir n2 a2 cp2 note2 = Ok (fs2, e2)
    ∧ fs2 !! state_json dir = Some (json_dumps (JObj (<["triaged" := JObj triaged2]> state)))
    ∧ triaged2 !! py_str n2 = Some (JObj e2)
    ∧ (py_str n1 ≠ py_str n2 -> triaged2 !! py_str n1 = Some (JObj e1))
    ∧ (∀ k, k ≠ py_str n1 -> k ≠ py_str n2 -> triaged2 !! k = triaged !! k).
Proof.
  intros Hload Hdict Hcodec.
  pose proof (mark_triaged_ok fs dir state triaged n1 a1 cp1 note1 Hload Hdict) as H1.
  set (state1 := <["triaged" := JObj (<[py_str n1 := JObj (new_entry a1 cp1 note1)]> triaged)]>
                   state) in *.
  assert (Hload1 : load_json (save_json fs (state_json dir) (JObj state1)) (state_json dir)
                   = Ok (JObj state1)) by (by apply load_after_save).
  assert (Hdict1 : triaged_dict state1
                   = Some (<[py_str n1 := JObj (new_entry a1 cp1 note1)]> triaged)).
  { unfold triaged_dict, state1. by rewrite lookup_insert_eq. }
  pose proof (mark_triaged_ok _ dir state1 _ n2 a2 cp2 note2 Hload1 Hdict1) as H2.
  eexists _, _, _, _, _. split; [exact H1|]. split; [exact H2|].
  split; [rewrite save_json_lookup; unfold state1; by rewrite insert_insert_eq|].
  split; [apply lookup_insert_eq|].
  split.
  - intros Hne. rewrite lookup_insert_ne by congruence. apply lookup_insert_eq.
  - intros k Hk1 Hk2. by rewrite !lookup_insert_ne by congruence.
Qed.

Lemma mark_triaged_twice_witness :
  ∃ (fs1 : store) (e1 : gmap string json) (fs2 : store)
    (e2 triaged2 : gmap string json),
    @mark_triaged Reference.host Reference.sample_files Reference.triage_dir
      (PyInt 102) "closed" true (JStr "") = Ok (fs1, e1)
    ∧ @mark_triaged Reference.host fs1 Reference.triage_dir
        (PyInt 103) "skipped" false (JStr "later") = Ok (fs2, e2)
    ∧ triaged2 !! "103" = Some (JObj e2)
    ∧ triaged2 !! "102" = Some (JObj e1)
    ∧ triaged2 !! "101" = Some (JObj Reference.old_entry).
Proof.
  assert (Hload : @load_json Reference.host Reference.sample_files
                    (state_json Reference.triage_dir)
                  = Ok (JObj Reference.sample_state)) by (vm_compute; reflexivity).
  assert (Hdict : triaged_dict Reference.sample_state = Some Reference.sample_triaged)
    by (vm_compute; reflexivity).
  destruct (@mark_triaged_twice Reference.host Reference.sample_files
              Reference.triage_dir Reference.sample_state Reference.sample_triaged
              (PyInt 102) (PyInt 103) "closed" "skipped" true false (JStr "") (JStr "later")
              Hload Hdict ltac:(vm_compute; reflexivity))
    as (fs1 & e1 & fs2 & e2 & triaged2 & H1 & H2 & _ & Hk2 & Hk1 & Hother).
  exists fs1, e1, fs2, e2, triaged2.
  split; [exact H1|]. split; [exact H2|]. split; [exact Hk2|].
  split; [apply Hk1; vm_compute; discriminate|].
  rewrite Hother by (vm_compute; discriminate). vm_compute. reflexivity.
Defined.

(* ===================================================================== *)
(** ** Facts about the read handlers and the choice of the repository *)
(* ===================================================================== *)

Import Routes.

(** X3. When [state.json] is missing or holds an object, GET /api/state
    answers 200 with an object that has the key [triaged]: the file's own
    value when it has one, the empty object otherwise; every other key is
    the file's.  With no file the answer is [{"triaged": {}}]. *)
Theorem get_state_has_triaged `{Host} (dir : string) (fs : store)
    (data : gmap string json) :
  load_json fs (state_json dir) = Ok (JObj data) ->
  ∃ body : gmap string json,
    _handle_get_state dir fs = Sent 200 (JObj body)
    ∧ body !! "triaged" = Some (default (JObj ∅) (data !! "triaged"))
    ∧ (∀ k, k ≠ "triaged" -> body !! k = data !! k)
    ∧ (fs !! state_json dir = None -> body = {[ "triaged" := JObj ∅ ]}).
Proof.
  intros Hload. unfold _handle_get_state. rewrite Hload.
  eexists. split; [reflexivity|].
  destruct (data !! "triaged") as [v|] eqn:Hv; simpl.
  - split; [done|]. split; [done|].
    intros Hnone. rewrite (load_json_missing _ _ Hnone) in Hload.
    injection Hload as <-. by rewrite lookup_empty in Hv.
  - split; [apply lookup_insert_eq|].
    split; [intros k Hk; by apply lookup_insert_ne|].
    intros Hnone. rewrite (load_json_missing _ _ Hnone) in Hload.
    by injection Hload as <-.
Qed.

Lemma get_state_has_triaged_witness :
  ∃ body : gmap string json,
    @_handle_get_state Reference.host Reference.triage_dir Reference.sample_files
    = Sent 200 (JObj body)
    ∧ body !! "triaged" = Some (JObj Reference.sample_triaged)
    ∧ body !! "schema" = Some (JInt 1).
Proof.
  assert (Hload : @load_json Reference.host Reference.sample_files
                    (state_json Reference.triage_dir)
                  = Ok (JObj Reference.sample_state)) by (vm_compute; reflexivity).
  destruct (@get_state_has_triaged Reference.host Reference.triage_dir
              Reference.sample_files Reference.sample_state Hload)
    as (body & Hrun & Htriaged & Hother & _).
  exists body. split; [exact Hrun|]. split; [exact Htriaged|].
  by rewrite Hother.
Defined.

(** X4. After a record, the codec reading the written state back, GET
    /api/state answers 200 with a [triaged] that binds [str(number)] to the
    entry just returned and every other key to what it was bound to. *)
Theorem get_state_after_record `{Host} (dir : string) (fs : store)
    (state triaged : gmap string json) (n : pyint) (a : string) (cp : bool)
    (note : json) :
  load_json fs (state_json dir) = Ok (JObj state) ->
  triaged_dict state = Some triaged ->
  json_loads
    (json_dumps
       (JObj (<["triaged" := JObj (<[py_str n := JObj (new_entry a cp note)]> triaged)]>
                state)))
  = Some (JObj (<["triaged" := JObj (<[py_str n := JObj (new_entry a cp note)]> triaged)]>
                  state)) ->
  ∃ (fs' : store) (entry body triaged' : gmap string json),
    mark_triaged fs dir n a cp note = Ok (fs', entry)
    ∧ _handle_get_state dir fs' = Sent 200 (JObj body)
    ∧ body !! "triaged" = Some (JObj triaged')
    ∧ triaged' !! py_str n = Some (JObj entry)
    ∧ (∀ k, k ≠ py_str n -> triaged' !! k = triaged !! k)
    ∧ (∀ k, k ≠ "triaged" -> body !! k = state !! k).
Proof.
  intros Hload Hdict Hcodec.
  pose proof (mark_triaged_ok fs dir state triaged n a cp note Hload Hdict) as Hm.
  eexists _, _, _, _. split; [exact Hm|].
  unfold _handle_get_state.
  rewrite (load_after_save _ _ _ Hcodec). rewrite lookup_insert_eq.
  split; [reflexivity|]. split; [apply lookup_insert_eq|].
  split; [apply lookup_insert_eq|].
  split; intros k Hk; by apply lookup_insert_ne.
Qed.

Lemma get_state_after_record_witness :
  ∃ (fs' : store) (entry body triaged' : gmap string json),
    @mark_triaged Reference.host Reference.sample_files Reference.triage_dir
      (PyInt 102) "commented" true (JStr "") = Ok (fs', entry)
    ∧ @_handle_get_state Reference.host Reference.triage_dir fs' = Sent 200 (JObj body)
    ∧ body !! "triaged" = Some (JObj triaged')
    ∧ triaged' !! "102" = Some (JObj entry)
    ∧ triaged' !! "101" = Some (JObj Reference.old_entry).
Proof.
  assert (Hload : @load_json Reference.host Reference.sample_files
                    (state_json Reference.triage_dir)
                  = Ok (JObj Reference.sample_state)) by (vm_compute; reflexivity).
  assert (Hdict : triaged_dict Reference.sample_state = Some Reference.sample_triaged)
    by (vm_compute; reflexivity).
  destruct (@get_state_after_record Reference.host Reference.triage_dir
              Reference.sample_files Reference.sample_state Reference.sample_triaged
              (PyInt 102) "commented" true (JStr "")
              Hload Hdict ltac:(vm_compute; reflexivity))
    as (fs' & entry & body & triaged' & Hm & Hget & Hbody & Hkey & Hother & _).
  exists fs', entry, body, triaged'.
  split; [exact Hm|]. split; [exact Hget|]. split; [exact Hbody|].
  split; [exact Hkey|].
  rewrite Hother by (vm_compute; discriminate). vm_compute. reflexivity.
Defined.

(* ===================================================================== *)
(** ** What a request leaves behind *)
(* ===================================================================== *)

Section Outcomes.
Context `{Host}.
Variables (dir repo : string).

Lemma recorded_ends_well (n : pyint) (a : string) (cp : bool) (note : json)
    (w0 w : world) :
  files w = files w0 ->
  ends_well dir w0 (recorded a (record_triage dir n a cp note w)).1
    (recorded a (record_triage dir n a cp note w)).2.
Proof.
  intros Hfiles.
  destruct (record_triage_spec dir n a cp note w) as (out & w' & -> & _ & _ & Hres).
  simpl. rewrite Hfiles in Hres.
  destruct Hres as [(fs' & entry & Hm & -> & Hf)|(e & Hm & -> & Hf)].
  - right. right. by exists n, a, cp, note, fs', entry.
  - right. left. split; [done|]. right. left. by exists e.
Qed.

Lemma recorded_swept (n : pyint) (a : string) (cp : bool) (note : json)
    (w : world) :
  tmpfiles (recorded a (record_triage dir n a cp note w)).2 = tmpfiles w.
Proof.
  destruct (record_triage_spec dir n a cp note w) as (out & w' & -> & Htmp & _).
  exact Htmp.
Qed.

Lemma do_close_ends_well (n : pyint) (comment : json) (reason : string)
    (labels : json) (w : world) :
  ends_well dir w (_do_close dir repo n comment reason labels w).1
    (_do_close dir repo n comment reason labels w).2
  ∧ swept w (_do_close dir repo n comment reason labels w).2.
Proof.
  destruct (do_close_cases dir repo n comment reason labels w)
    as (out & w' & evs & -> & _ & Htmp & Hcases). simpl.
  split; [|exact Htmp].
  destruct Hcases
    as [(c & ls & _ & _ & _ & [(fs' & entry & Hm & -> & Hf)|(e & Hm & -> & Hf)])
       |[(pre & args & err & text & _ & -> & Hf)
        |(pre & _ & Hout & Hf)]].
  - right. right. by exists n, "closed", (truthy (strip c)), (JStr ""), fs', entry.
  - right. left. split; [done|]. right. left. by exists e.
  - right. left. split; [done|]. left. by eexists.
  - right. left. split; [done|]. right.
    destruct Hout as [->|[->| ->]]; [by right|left; by eexists..].
Qed.

Lemma do_comment_ends_well (n : pyint) (comment : json) (w : world) :
  ends_well dir w (_do_comment dir repo n comment w).1
    (_do_comment dir repo n comment w).2
  ∧ swept w (_do_comment dir repo n comment w).2.
Proof.
  unfold _do_comment.
  destruct comment as [| | | |c| |];
    try (split; [|by left]; right; left; split; [done|]; right; left; by eexists).
  destruct (truthy (strip c)); cbn [negb].
  - destruct (post_comment_spec repo n c w) as (ok & err & w1 & -> & Hf & Ht & _ & _).
    destruct ok; cbn [negb].
    + split; [by apply recorded_ends_well|]. right. by rewrite recorded_swept.
    + split; [|by right]. right. left. split; [done|]. left. by eexists.
  - split; [|by left]. left. split; [done|]. by eexists.
Qed.

Lemma handle_action_ends_well (raw : string) (w : world) :
  ends_well dir w (_handle_action dir repo raw w).1 (_handle_action dir repo raw w).2
  ∧ swept w (_handle_action dir repo raw w).2.
Proof.
  assert (∀ m, ends_well dir w (_send_error_json 400 m) w ∧ swept w w) as Hrejected.
  { intros m. split; [|by left]. left. split; [done|]. by eexists. }
  assert (∀ e, ends_well dir w (Crashed e) w ∧ swept w w) as Hcrashed.
  { intros e. split; [|by left]. right. left. split; [done|]. right. left. by eexists. }
  unfold _handle_action.
  destruct (json_loads raw) as [[| | | | | |body]|];
    try apply Hcrashed; [|apply Hrejected].
  destruct (isinstance_int _) as [n|]; [|apply Hrejected].
  destruct (int_value n <=? 0)%Z; [apply Hrejected|].
  destruct (as_str (body_get body "action" JNull)) as [a|]; [|apply Hrejected].
  destruct (bool_decide (a ∈ action_names)); cbn [negb]; [|apply Hrejected].
  unfold dispatch.
  destruct (String.eqb a "close"); [apply do_close_ends_well|].
  destruct (String.eqb a "close_wontfix").
  { destruct (body_get body "labels" (JArr [])); try apply Hcrashed.
    apply do_close_ends_well. }
  destruct (String.eqb a "comment"); [apply do_comment_ends_well|].
  unfold _do_skip. split; [by apply recorded_ends_well|].
  left. by rewrite recorded_swept.
Qed.


End Outcomes.

(** X5. The answer to an action request tells what happened to the files.
    A 400 means nothing at all happened: no command, no record, the world
    as it was.  Any answer other than a 200 (also an escaped exception)
    leaves every file of the triage directory as it was.  A 200 carries the
    entry [mark_triaged] returned and leaves the files it wrote. *)
Theorem action_answer_tells_files `{Host} (dir repo raw : string) (w : world) :
  (∀ p, (_handle_action dir repo raw w).1 = Sent 400 p ->
        (_handle_action dir repo raw w).2 = w)
  ∧ ((∀ p, (_handle_action dir repo raw w).1 ≠ Sent 200 p) ->
     files (_handle_action dir repo raw w).2 = files w)
  ∧ (∀ p, (_handle_action dir repo raw w).1 = Sent 200 p ->
          ∃ n a cp note fs' entry,
            p = ok_payload a entry
            ∧ mark_triaged (files w) dir n a cp note = Ok (fs', entry)
            ∧ files (_handle_action dir repo raw w).2 = fs').
Proof.
  destruct (handle_action_ends_well dir repo raw w)
    as [[[Hw Hout]|[[Hf Hout]|(n & a & cp & note & fs' & entry & Hout & Hm & Hf)]] _].
  - split; [done|]. split; [by rewrite Hw|].
    intros p Hp. rewrite Hp in Hout. by destruct Hout as [p' [=]].
  - split; [|split; [done|]].
    + intros p Hp. rewrite Hp in Hout.
      by destruct Hout as [[p' [=]]|[[e [=]]|[=]]].
    + intros p Hp. rewrite Hp in Hout.
      by destruct Hout as [[p' [=]]|[[e [=]]|[=]]].
  - rewrite Hout. split; [intros p [=]|]. split.
    + intros Hno. by destruct (Hno (ok_payload a entry)).
    + intros p [= <-]. by exists n, a, cp, note, fs', entry.
Qed.

(** X6. Whatever the request and however it ends, the only files of the
    triage directory that can differ afterwards are [state.json] and its
    [.tmp] sibling. *)
Theorem action_touches_only_state `{Host} (dir repo raw : string) (w : world)
    (path : string) :
  path ≠ state_json dir ->
  path ≠ with_suffix_tmp (state_json dir) ->
  files (_handle_action dir repo raw w).2 !! path = files w !! path.
Proof.
  intros Hpath Htmp.
  destruct (handle_action_ends_well dir repo raw w)
    as [[[-> _]|[[-> _]|(n & a & cp & note & fs' & entry & _ & Hm & ->)]] _];
    try done.
  destruct (mark_triaged_inv (files w) dir n a cp note)
    as [(state & triaged & Hload & Hdict)|[[Hr _]|[Hr _]]]; try congruence.
  rewrite (mark_triaged_ok _ _ _ _ n a cp note Hload Hdict) in Hm.
  injection Hm as <- _.
  rewrite save_json_lookup_other by done.
  by destruct (decide _).
Qed.

Lemma action_touches_only_state_witness :
  files (@_handle_action Reference.host Reference.triage_dir Reference.repo
           Reference.close_with_comment
           (World (<["/t/triage/findings.json" := "{}"]> Reference.sample_files) ∅ [])).2
    !! "/t/triage/findings.json" = Some "{}".
Proof.
  rewrite (@action_touches_only_state Reference.host); [|vm_compute; discriminate..].
  vm_compute. reflexivity.
Defined.





(** X9. A close request whose comment is not a string, [null] say, and
    whose labels are strings: the handler runs the label commands, every one
    of which [subprocess.run] completes, and then raises [AttributeError] on
    [comment.strip()]: the labels have been added, the issue is not closed,
    nothing is recorded, no answer is sent. *)
Theorem close_without_comment_text `{Host} (dir repo raw : string) (n : pyint)
    (comment : json) (ls : list string) (w : world) :
  valid_request raw = Some (n, "close", comment, JArr (JStr <$> ls)) ->
  as_str comment = None ->
  (∀ i l, ls !! i = Some l ->
          subprocess_run
            (World (files w) (tmpfiles w)
               (trace w ++ (went_through <$> label_calls repo n (take i ls))))
            (label_call repo n l) = Completed) ->
  _handle_action dir repo raw w
  = (Crashed AttributeError,
     World (files w) (tmpfiles w)
       (trace w ++ (went_through <$> label_calls repo n ls))).
Proof.
  intros Hvalid Hcomment Hall.
  rewrite (handle_valid_request dir repo raw n "close" _ _ w Hvalid).
  change (dispatch dir repo n "close" comment (JArr (JStr <$> ls)) w)
    with (_do_close dir repo n comment "completed" (JArr (JStr <$> ls)) w).
  unfold _do_close. rewrite label_items_list.
  rewrite (add_labels_through repo n ls w Hall).
  by destruct comment.
Qed.

Lemma close_without_comment_text_witness :
  @_handle_action Reference.host Reference.triage_dir Reference.repo
    (Reference.json_text "{'number': 102, 'action': 'close', 'comment': null, 'labels': ['bug']}")
    Reference.sample_world
  = (Crashed AttributeError,
     World Reference.sample_files ∅
       [GhCall ["gh"; "issue"; "edit"; "102"; "--repo"; "owner/repo";
                "--add-label"; "bug"] true ""]).
Proof.
  rewrite (@close_without_comment_text Reference.host Reference.triage_dir
             Reference.repo _ (PyInt 102) JNull ["bug"]).
  - reflexivity.
  - vm_compute. reflexivity.
  - reflexivity.
  - intros i l Hl. reflexivity.
Defined.

(* ===================================================================== *)
(** ** The repository the server works on *)
(* ===================================================================== *)

(** X10. When [main] settles on a repository, the value is true in
    Python's sense and comes from one of three places, in this order of
    precedence: the [--repo] argument when it is given and not empty; the
    [repo] of [findings.json]; the [repo] of [issues.json], and then only
    because [findings.json] had none that is true. *)
Theorem resolve_repo_choice `{Host} (dir : string) (arg : option string)
    (fs : store) (repo : json) :
  resolve_repo dir arg fs = Ok (Some repo) ->
  json_truthy repo = true
  ∧ ((∃ a, arg = Some a ∧ a ≠ "" ∧ repo = JStr a)
     ∨ ((arg = None ∨ arg = Some "")
        ∧ ∃ findings,
            load_json fs (dir ++ "/findings.json") = Ok (JObj findings)
            ∧ (repo = body_get findings "repo" (JStr "")
               ∨ (json_truthy (body_get findings "repo" (JStr "")) = false
                  ∧ ∃ issues,
                      load_json fs (dir ++ "/issues.json") = Ok (JObj issues)
                      ∧ repo = body_get issues "repo" (JStr ""))))).
Proof.
  assert (∀ r0 : json,
            (match search_repo dir fs ["findings.json"; "issues.json"] r0 with
             | Raise e => Raise e
             | Ok r => Ok (if json_truthy r then Some r else None)
             end) = Ok (Some repo) ->
            json_truthy repo = true
            ∧ ∃ findings,
                load_json fs (dir ++ "/findings.json") = Ok (JObj findings)
                ∧ (repo = body_get findings "repo" (JStr "")
                   ∨ (json_truthy (body_get findings "repo" (JStr "")) = false
                      ∧ ∃ issues,
                          load_json fs (dir ++ "/issues.json") = Ok (JObj issues)
                          ∧ repo = body_get issues "repo" (JStr "")))) as Hsearch.
  { intros r0. cbn [search_repo].
    destruct (load_json fs (dir ++ "/" ++ "findings.json")) as [[| | | | | |findings]|e]
      eqn:Hf; try discriminate.
    cbn [get_repo].
    destruct (json_truthy (body_get findings "repo" (JStr ""))) eqn:Ht1.
    - rewrite Ht1. intros [= <-]. split; [done|]. exists findings. split; [done|]. by left.
    - destruct (load_json fs (dir ++ "/" ++ "issues.json")) as [[| | | | | |issues]|e]
        eqn:Hi; try discriminate.
      cbn [get_repo].
      destruct (json_truthy (body_get issues "repo" (JStr ""))) eqn:Ht2.
      + rewrite Ht2. intros [= <-]. split; [done|]. exists findings. split; [done|].
        right. split; [done|]. by exists issues.
      + rewrite Ht2. discriminate. }
  unfold resolve_repo. destruct arg as [a|].
  - destruct (truthy a) eqn:Ha.
    + intros [= <-]. split; [done|]. left. exists a.
      split; [done|]. split; [by apply truthy_true|done].
    + intros Hres. apply Hsearch in Hres as [Ht Hfrom]. split; [done|].
      right. split; [|done]. right. f_equal. by apply truthy_false.
  - intros Hres. apply Hsearch in Hres as [Ht Hfrom]. split; [done|].
    right. split; [by left|done].
Qed.

Lemma resolve_repo_choice_witness :
  @resolve_repo Reference.host Reference.triage_dir None
    (<["/t/triage/issues.json" := Reference.json_text "{'repo': 'owner/repo'}"]>
       (<["/t/triage/findings.json" := Reference.json_text "{'repo': ''}"]> ∅))
  = Ok (Some (JStr "owner/repo"))
  ∧ json_truthy (JStr "owner/repo") = true.
Proof.
  assert (Hrun : @resolve_repo Reference.host Reference.triage_dir None
                   (<["/t/triage/issues.json" :=
                        Reference.json_text "{'repo': 'owner/repo'}"]>
                      (<["/t/triage/findings.json" :=
                           Reference.json_text "{'repo': ''}"]> ∅))
                 = Ok (Some (JStr "owner/repo"))) by (vm_compute; reflexivity).
  split; [exact Hrun|].
  exact (proj1 (@resolve_repo_choice Reference.host _ _ _ _ Hrun)).
Defined.
(* ===================================================================== *)
(** ** More facts about the dashboard *)
(* ===================================================================== *)

Import Pages.

(** X11. The lookup map of the findings binds an issue number to the last
    finding of the list that has this number, and a number that no finding
    has to nothing; so whatever it binds is a finding of the list with
    that number. *)
Theorem findings_index_last_wins (findings : list finding) (n : Z) :
  index_findings findings !! n = last (filter (fun f => f_number f = n) findings)
  ∧ (∀ f, index_findings findings !! n = Some f -> f ∈ findings ∧ f_number f = n)
  ∧ (∀ before f, f_number f = n -> index_findings (before ++ [f]) !! n = Some f).
Proof.
  split; [apply index_findings_last|]. split.
  - intros f. rewrite index_findings_last. unfold Spec.finding_of. intros Hlast.
    apply last_Some in Hlast as [l' Hl'].
    assert (f ∈ filter (fun f => f_number f = n) findings) as Hin.
    { rewrite Hl'. apply elem_of_app. right. by left. }
    by apply list_elem_of_filter in Hin as [? ?].
  - intros before f Hf. rewrite index_findings_last. unfold Spec.finding_of.
    rewrite filter_app, filter_cons_True by done. simpl. apply last_snoc.
Qed.

Section FilterFacts.
Variables (findings_by_num : gmap Z finding) (triaged : gmap string json).

Lemma show_stage_sublist (show : string) (l : list issue) :
  (if String.eqb show "pending" then
     filter (fun i => triaged !! py_str (PyInt (number i)) = None) l
   else if String.eqb show "triaged" then
     filter (fun i => is_Some (triaged !! py_str (PyInt (number i)))) l
   else l) `sublist_of` l.
Proof. repeat case_match; try apply sublist_filter; done. Qed.

Lemma apply_filters_sublist (issues : list issue) (filters : gmap string string) :
  apply_filters issues findings_by_num triaged filters `sublist_of` issues.
Proof.
  unfold apply_filters.
  etrans; [apply show_stage_sublist|].
  destruct (truthy (get_or filters "q" ""));
    [etrans; [apply sublist_filter|]|];
    (destruct (truthy (get_or filters "confidence" ""));
       [etrans; [apply sublist_filter|]|]);
    (destruct (truthy (get_or filters "verdict" "")); [apply sublist_filter|done]).
Qed.


End FilterFacts.

Lemma get_or_insert (filters : gmap string string) (k v d : string) :
  get_or (<[k := v]> filters) k d = v.
Proof. unfold get_or. by rewrite lookup_insert_eq. Qed.

Lemma get_or_insert_ne (filters : gmap string string) (k k' v d : string) :
  k ≠ k' -> get_or (<[k := v]> filters) k' d = get_or filters k' d.
Proof. intros Hne. unfold get_or. by rewrite lookup_insert_ne. Qed.

Lemma dashboard_issues_perm (issues : list issue) (findings : list finding)
    (state : gmap string json) (filters : gmap string string) :
  dashboard_issues issues findings state filters
  ≡ₚ apply_filters issues (index_findings findings) (triaged_of state) filters.
Proof.
  unfold dashboard_issues, apply_sort.
  repeat (match goal with |- context [String.eqb ?a ?b] => destruct (String.eqb a b) end);
    apply sort_by_perm.
Qed.

Lemma strongly_sorted_impl {A : Type} (R R' : A -> A -> Prop) (l : list A) :
  (∀ a b, R a b -> R' a b) -> StronglySorted R l -> StronglySorted R' l.
Proof.
  intros HR. induction 1 as [|x l Hsorted IH Hall]; constructor; [done|].
  eapply Forall_impl; [exact Hall|]. intros b. apply HR.
Qed.

(** X12. The table only ever shows issues of the list it was given, each
    at most as often as the list has it, whatever the filters and the sort;
    and with no filter at all it shows every one of them, in ascending
    order of their numbers. *)
Theorem dashboard_shows_given_issues (issues : list issue) (findings : list finding)
    (state : gmap string json) (filters : gmap string string) :
  dashboard_issues issues findings state filters ⊆+ issues
  ∧ dashboard_issues issues findings state ∅ ≡ₚ issues
  ∧ StronglySorted (fun a b => (number a <= number b)%Z)
      (dashboard_issues issues findings state ∅).
Proof.
  split; [|split].
  - rewrite dashboard_issues_perm.
    apply sublist_submseteq, apply_filters_sublist.
  - by rewrite dashboard_issues_perm.
  - unfold dashboard_issues, apply_sort. simpl.
    eapply strongly_sorted_impl;
      [|apply (sort_by_sorted number Z.leb Z_leb_total Z_leb_trans)].
    intros a b Hab. by apply Z.leb_le.
Qed.


Lemma lower_empty (s : string) : lower s = "" -> s = "".
Proof. by destruct s. Qed.

(** X14. The text search does not look at case: two search texts that
    differ only in the case of their letters select the same issues. *)
Theorem search_ignores_case (issues : list issue) (findings : list finding)
    (state : gmap string json) (filters : gmap string string) (q q' : string) :
  lower q = lower q' ->
  dashboard_issues issues findings state (<["q" := q]> filters)
  = dashboard_issues issues findings state (<["q" := q']> filters).
Proof.
  intros Hq.
  assert (truthy q = truthy q') as Ht.
  { destruct (truthy q) eqn:H1, (truthy q') eqn:H2; try done.
    - apply truthy_false in H2 as ->. simpl in Hq.
      apply lower_empty in Hq as ->. done.
    - apply truthy_false in H1 as ->. simpl in Hq. symmetry in Hq.
      apply lower_empty in Hq as ->. done. }
  unfold dashboard_issues, apply_sort, apply_filters.
  rewrite !get_or_insert, !get_or_insert_ne by done.
  by rewrite Ht, Hq.
Qed.

Lemma search_ignores_case_witness :
  number <$> dashboard_issues [issue_101; issue_102; issue_103] sample_findings ∅
               (<["q" := "CRASH"]> ∅)
  = [101]
  ∧ number <$> dashboard_issues [issue_101; issue_102; issue_103] sample_findings ∅
                 (<["q" := "crash"]> ∅)
    = [101].
Proof.
  rewrite <- (search_ignores_case [issue_101; issue_102; issue_103] sample_findings ∅ ∅
                "CRASH" "crash") by (vm_compute; reflexivity).
  split; vm_compute; reflexivity.
Defined.

Lemma count_verdicts_from (findings_by_num : gmap Z finding) (issues : list issue)
    (m : gmap string nat) (v : string) :
  default 0%nat
    (foldl (fun verdicts i =>
              let v := shown_verdict findings_by_num i in
              <[v := (default 0 (verdicts !! v) + 1)%nat]> verdicts) m issues !! v)
  = (default 0 (m !! v)
     + length (filter (fun i => shown_verdict findings_by_num i = v) issues))%nat.
Proof.
  revert m. induction issues as [|i l IH]; intros m; simpl; [lia|].
  rewrite IH, filter_cons.
  destruct (decide (shown_verdict findings_by_num i = v)) as [->|Hne].
  - rewrite lookup_insert_eq. simpl. lia.
  - by rewrite lookup_insert_ne.
Qed.

Lemma count_verdicts_count (findings_by_num : gmap Z finding) (issues : list issue)
    (v : string) :
  default 0%nat (count_verdicts issues findings_by_num !! v)
  = length (filter (fun i => shown_verdict findings_by_num i = v) issues).
Proof. unfold count_verdicts. by rewrite count_verdicts_from. Qed.

(** X15. The summary bar gives the number of issues as the total, the
    number of triage entries, and one item for each of the six verdicts it
    knows that some issue has, with the number of issues that have it,
    where an issue without a finding or without a verdict counts as
    pending.  Issues with any other verdict, "duplicate" or "unclear" say,
    are in the total and in no item. *)
Theorem summary_bar_counts (issues : list issue) (findings_by_num : gmap Z finding)
    (triaged : gmap string json) :
  total (_build_summary_bar issues findings_by_num triaged) = length issues
  ∧ triaged_count (_build_summary_bar issues findings_by_num triaged) = size triaged
  ∧ (∀ v c,
       (v, c) ∈ items (_build_summary_bar issues findings_by_num triaged)
       <-> v ∈ ["likely_resolved"; "feature_implemented"; "still_open";
                "needs_investigation"; "stale_wontfix"; "pending"]
           ∧ c = length (filter
                           (fun i => default "pending"
                                       (findings_by_num !! number i ≫= verdict) = v)
                           issues)
           ∧ c ≠ 0%nat).
Proof.
  split; [done|]. split; [done|].
  intros v c. unfold _build_summary_bar. cbn [items].
  rewrite list_elem_of_omap. split.
  - intros (v' & Hv' & Hsome).
    destruct (default 0%nat (count_verdicts issues findings_by_num !! v') =? 0)%nat
      eqn:Hzero; [discriminate|].
    injection Hsome as -> <-.
    split; [exact Hv'|]. split; [apply count_verdicts_count|].
    by apply Nat.eqb_neq in Hzero.
  - intros (Hv & -> & Hc). exists v. split; [exact Hv|].
    rewrite count_verdicts_count.
    apply Nat.eqb_neq in Hc. unfold shown_verdict, finding_get in *.
    by rewrite Hc.
Qed.

Lemma substring_all (n : nat) (s : string) :
  (String.length s <= n)%nat -> String.substring 0 n s = s.
Proof.
  revert s. induction n as [|n IH]; intros s Hlen.
  - destruct s; [done|simpl in Hlen; lia].
  - destruct s as [|c s]; [done|]. simpl. rewrite IH; [done|simpl in Hlen; lia].
Qed.

Lemma substring_length (n : nat) (s : string) :
  String.length (String.substring 0 n s) = Nat.min n (String.length s).
Proof.
  revert s. induction n as [|n IH]; intros s.
  - by destruct s.
  - destruct s as [|c s]; [done|]. simpl. by rewrite IH.
Qed.

Lemma append_length (s1 s2 : string) :
  String.length (s1 ++ s2) = (String.length s1 + String.length s2)%nat.
Proof. induction s1 as [|c s1 IH]; simpl; [done|]. by rewrite IH. Qed.

(** X16. The body preview of the detail page shows a body of at most 2000
    characters as it is, a missing or null body as the empty text, and of a
    longer body the first 2000 characters followed by the mark that it was
    cut: never more than 2017 characters. *)
Theorem body_preview_bounds (body : option string) :
  (∀ s, body = Some s -> (String.length s <= 2000)%nat -> body_preview body = s)
  ∧ (body = None -> body_preview body = "")
  ∧ (∀ s, body = Some s -> (2000 < String.length s)%nat ->
          body_preview body
          = (String.substring 0 2000 s
             ++ String "010" (String "010" "... (truncated)"))%string
          ∧ String.length (body_preview body) = 2017%nat)
  ∧ (String.length (body_preview body) <= 2017)%nat.
Proof.
  assert (Hshort : ∀ s, (String.length s <= 2000)%nat -> body_preview (Some s) = s).
  { intros s Hlen. unfold body_preview. change (default "" (Some s)) with s.
    destruct (2000 <? String.length s)%nat eqn:Hlt;
      [apply Nat.ltb_lt in Hlt; lia|].
    by apply substring_all. }
  assert (Hlong : ∀ s, (2000 < String.length s)%nat ->
            body_preview (Some s)
            = (String.substring 0 2000 s
               ++ String "010" (String "010" "... (truncated)"))%string
            ∧ String.length (body_preview (Some s)) = 2017%nat).
  { intros s Hlen. unfold body_preview. change (default "" (Some s)) with s.
    destruct (2000 <? String.length s)%nat eqn:Hlt;
      [|apply Nat.ltb_ge in Hlt; lia].
    split; [done|]. rewrite append_length, substring_length.
    change (String.length truncation_mark) with 17%nat. lia. }
  split; [by intros s ->; apply Hshort|].
  split; [by intros ->|].
  split; [by intros s ->; apply Hlong|].
  destruct body as [s|]; [|simpl; lia].
  destruct (Nat.le_gt_cases (String.length s) 2000) as [Hle|Hgt].
  - rewrite Hshort by done. lia.
  - destruct (Hlong s Hgt) as [_ ->]. lia.
Qed.


Section RowFacts.
Variables (findings_by_num : gmap Z finding) (triaged : gmap string json).





End RowFacts.



